(** * a2sapi: the server-list assembler and the batch fan-out

    A shallow embedding of the Go package [steam] (batch fan-out of the
    A2S info/players/rules queries, the server-list assembler
    [buildServerList], [setServerIDForList], [retrieve]) and of
    [models.GetDefaultServerList], followed by the properties the
    specification states about them.

    Conventions of the embedding.
    - A Go [int]/[int64] is a [Z]; a Go [string] is a [string].
    - A Go slice is a [slice A]: [None] is the nil slice, [Some l] an
      allocated one (the two differ when serialised: [null] against [[]]).
    - A Go pointer that may be nil is an [option]; a Go map used only for
      lookups and stores is a [gmap], the nil map being read as [∅].
    - Collaborators that live outside the package (the network exchanges,
      the master query, the two databases, the clock, the file system) are
      the fields of an environment record [Env]; every call to one of them
      is written to an event log, so that "what was contacted, and in which
      order" is part of a function's result.
    - A function call ends in one of three ways: it returns, it panics
      (nil dereference), or it blocks forever on a channel receive. *)

From Stdlib Require Import ZArith Lia Ascii String.
From stdpp Require Import base option list gmap strings fin_maps pretty.

Set Warnings "-register-all".

Local Open Scope Z_scope.

(** ** Go values *)

(** Errors. The three sentinels are package-level values compared by
    identity; [Foreign] stands for any error value created outside the
    package (network, database, file system); [LogAppErrorf] is the error
    built by [util.LogAppErrorf] from a format string without arguments,
    [LogAppErrorfWrap] the one built from a format with a [%s] for the
    error it reports. *)
Inductive error : Type :=
| ErrNoInfo
| ErrNoPlayers
| ErrNoRules
| Foreign (msg : string)
| LogAppErrorf (format : string)
| LogAppErrorfWrap (format : string) (cause : error).

(** [util.LogAppError err]. Package [util] is not among the sources and
    the spec does not describe it; by its uses ([return nil,
    util.LogAppError(err)]) it takes an error and gives one back.
    Assumption: it logs [err] and hands back [err] itself. Statements
    about an error that went through it are written with [LogAppError]. *)
Definition LogAppError (err : error) : error := err.

(** [err != ErrNoPlayers] *)
Definition isErrNoPlayers (err : error) : bool :=
  match err with ErrNoPlayers => true | _ => false end.

(** [err != ErrNoRules] *)
Definition isErrNoRules (err : error) : bool :=
  match err with ErrNoRules => true | _ => false end.

(** A value returned together with an error, as in [(v, err)]. *)
Inductive result (A : Type) : Type :=
| Ok (a : A)
| Err (e : error).
Arguments Ok {A} a.
Arguments Err {A} e.

(** Slices: [None] is nil. *)
Definition slice (A : Type) : Type := option (list A).

Definition elems {A} (s : slice A) : list A := default [] s.

(** [len(s)] *)
Definition len {A} (s : slice A) : Z := Z.of_nat (length (elems s)).

(** [append(s, x)]: appending to nil allocates. *)
Definition append {A} (s : slice A) (x : A) : slice A := Some (elems s ++ [x]).

(** [make([]T, 0)] *)
Definition make_slice {A} : slice A := Some [].

(** [for _, p := range s { update *p }] on a slice of pointers: the slice
    keeps its length and its nil-ness. *)
Definition forEachPtr {A} (f : A → A) (s : slice A) : slice A :=
  match s with
  | None => None
  | Some l => Some (f <$> l)
  end.

(** ** Data model *)

Inductive requestType : Type := ruleRequest | playerRequest | infoRequest.

(** [filters.Filter]: the three omission flags read by this package. *)
Record Filter : Type := mkFilter {
  HasIgnoreInfo : bool;
  HasIgnorePlayers : bool;
  HasIgnoreRules : bool
}.

(** The extended block of an info reply. A numeric field that was not on
    the wire holds Go's zero value. *)
Module ExtraData.
Record t : Type := mk {
  Port : Z;
  SteamID : Z;
  SourceTVPort : Z;
  SourceTVName : string;
  Keywords : string;
  GameID : Z
}.
End ExtraData.

Module ServerInfo.
Record t : Type := mk {
  Protocol : Z;
  Name : string;
  Map : string;
  Folder : string;
  Game : string;
  ID : Z;
  Players : Z;
  MaxPlayers : Z;
  Bots : Z;
  ServerType : string;
  Environment : string;
  Visibility : Z;
  VAC : Z;
  Version : string;
  ExtraData : ExtraData.t
}.
End ServerInfo.

Module PlayerInfo.
Record t : Type := mk {
  Name : string;
  Score : Z;
  TimeConnectedTot : string
}.
End PlayerInfo.

(** The dynamically typed [Info interface{}] field of a server: the nil
    interface, a [*ServerInfo] (which may itself be a nil pointer), or the
    empty [map[string]int] that stands for an omitted info. *)
Inductive InfoValue : Type :=
| InfoNil
| InfoPointer (p : option ServerInfo.t)
| InfoEmptyMap.

Module server.
Record t (Country : Type) : Type := mk {
  ID : Z;
  Host : string;
  IP : string;
  Port : Z;
  CountryInfo : option Country;
  Info : InfoValue;
  Players : slice PlayerInfo.t;
  Rules : option (gmap string string)
}.
Arguments mk {Country}.
Arguments ID {Country}.
Arguments Host {Country}.
Arguments IP {Country}.
Arguments Port {Country}.
Arguments CountryInfo {Country}.
Arguments Info {Country}.
Arguments Players {Country}.
Arguments Rules {Country}.

(** [s.ID = id] through the pointer held by the list. *)
Definition setID {Country} (id : Z) (s : t Country) : t Country :=
  mk id (Host s) (IP s) (Port s) (CountryInfo s) (Info s) (Players s) (Rules s).
End server.

Module serverList.
Record t (Country : Type) : Type := mk {
  RetrievedAt : string;
  RetrievedTimeStamp : Z;
  ServerCount : Z;
  Servers : slice (server.t Country);
  FailedCount : Z;
  FailedServers : slice string
}.
Arguments mk {Country}.
Arguments RetrievedAt {Country}.
Arguments RetrievedTimeStamp {Country}.
Arguments ServerCount {Country}.
Arguments Servers {Country}.
Arguments FailedCount {Country}.
Arguments FailedServers {Country}.
End serverList.

(** ** Serialised values *)

(** What [json.Marshal] produces. The members of an object are kept in the
    order in which they are written. [JStringMap] is the object written for
    a [map[string]string]. *)
Inductive json : Type :=
| JNull
| JNumber (n : Z)
| JString (s : string)
| JArray (items : list json)
| JObject (members : list (string * json))
| JStringMap (m : gmap string string).

(** The member names of an object, in output order. *)
Definition memberNames (j : json) : list string :=
  match j with
  | JObject members => members.*1
  | _ => []
  end.

(** ** Effects *)

(** What a function did to the outside world, in order. *)
Inductive event : Type :=
| EvMasterQuery
| EvQuery (kind : requestType) (host : string)
| EvRetry (kind : requestType) (hosts : slice string) (attempts : Z)
| EvOpenCountryDB
| EvCloseCountryDB
| EvOpenServerDB
| EvGetCountryInfo (ip : string)
| EvAddServersToDB (hosts : slice string)
| EvGetIDsForServerList (hosts : slice string)
| EvCreateFile (name : string)
| EvWriteFile (j : json).

(** [EvMasterQuery], [EvQuery] and [EvRetry] are the network exchanges. *)
Definition isNetwork (ev : event) : bool :=
  match ev with
  | EvMasterQuery | EvQuery _ _ | EvRetry _ _ _ => true
  | _ => false
  end.

(** [EvQuery] and [EvRetry] reach a game host. *)
Definition contactsHost (ev : event) : bool :=
  match ev with
  | EvQuery _ _ | EvRetry _ _ _ => true
  | _ => false
  end.

Inductive outcome (A : Type) : Type :=
| Returned (a : A)
| Panicked
| Blocked.
Arguments Returned {A} a.
Arguments Panicked {A}.
Arguments Blocked {A}.

(** A computation: the events it caused and how it ended. *)
Definition M (A : Type) : Type := list event * outcome A.

Definition events {A} (m : M A) : list event := fst m.
Definition ending {A} (m : M A) : outcome A := snd m.

Definition ret {A} (a : A) : M A := ([], Returned a).

Definition bind {A B} (m : M A) (k : A → M B) : M B :=
  match m with
  | (l, Returned a) => let '(l', o) := k a in (l ++ l', o)
  | (l, Panicked) => (l, Panicked)
  | (l, Blocked) => (l, Blocked)
  end.

Definition emit (ev : event) : M unit := ([ev], Returned tt).
Definition panic {A} : M A := ([], Panicked).
Definition block {A} : M A := ([], Blocked).

(** [<-ch] on a channel whose sender either sends [v] once ([Some v]) or
    returns without sending ([None]): the receive then never completes. *)
Definition recv {A} (sent : option A) : M A :=
  match sent with Some v => ret v | None => block end.

(** [defer]: the event happens when the function leaves, by return or by
    panic; a function that blocks never leaves. *)
Definition defer {A} (ev : event) (m : M A) : M A :=
  match m with
  | (l, Blocked) => (l, Blocked)
  | (l, o) => (l ++ [ev], o)
  end.

(** The computations form a monad; stdpp's [x ← m; k] and [m ;; k] are
    used to sequence them. *)
#[global] Instance M_ret : MRet M := @ret.
#[global] Instance M_bind : MBind M := λ A B k m, bind m k.

(** [for _, x := range xs { st = body(x, st) }] *)
Fixpoint forRange {A S} (body : A → S → M S) (xs : list A) (st : S) : M S :=
  match xs with
  | [] => ret st
  | x :: xs' => st' ← body x st; forRange body xs' st'
  end.

(** ** Library functions used by the assembler *)

Local Open Scope string_scope.
Local Open Scope list_scope.
Local Open Scope stdpp_scope.

(** [bytealg.IndexByteString] *)
Fixpoint IndexByte (s : string) (c : ascii) : option nat :=
  match s with
  | EmptyString => None
  | String a s' => if Ascii.eqb a c then Some 0%nat else S <$> IndexByte s' c
  end.

(** [bytealg.LastIndexByteString] *)
Fixpoint LastIndexByte (s : string) (c : ascii) : option nat :=
  match s with
  | EmptyString => None
  | String a s' =>
      match LastIndexByte s' c with
      | Some i => Some (S i)
      | None => if Ascii.eqb a c then Some 0%nat else None
      end
  end.

(** [s[a:b]] and [s[a:]] *)
Definition sliceStr (s : string) (a b : nat) : string := String.substring a (b - a) s.
Definition sliceFrom (s : string) (a : nat) : string :=
  String.substring a (String.length s - a) s.

(** [net.SplitHostPort] of the Go standard library: the port starts after
    the last colon; a host in brackets must close just before that colon;
    a host without brackets has no colon of its own. *)
Definition SplitHostPort (hostport : string) : result (string * string) :=
  let missingPort := Foreign "missing port in address" in
  let tooManyColons := Foreign "too many colons in address" in
  match LastIndexByte hostport ":" with
  | None => Err missingPort
  | Some i =>
      let checked : result (string * nat * nat) :=
        if bool_decide (String.get 0 hostport = Some "["%char) then
          match IndexByte hostport "]" with
          | None => Err (Foreign "missing ']' in address")
          | Some e =>
              if bool_decide (S e = String.length hostport) then Err missingPort
              else if bool_decide (S e = i) then Ok (sliceStr hostport 1 e, 1%nat, S e)
              else if bool_decide (String.get (S e) hostport = Some ":"%char)
                   then Err tooManyColons
                   else Err missingPort
          end
        else
          let host := sliceStr hostport 0 i in
          match IndexByte host ":" with
          | Some _ => Err tooManyColons
          | None => Ok (host, 0%nat, 0%nat)
          end in
      match checked with
      | Err e => Err e
      | Ok (host, j, k) =>
          match IndexByte (sliceFrom hostport j) "[" with
          | Some _ => Err (Foreign "unexpected '[' in address")
          | None =>
              match IndexByte (sliceFrom hostport k) "]" with
              | Some _ => Err (Foreign "unexpected ']' in address")
              | None => Ok (host, sliceFrom hostport (S i))
              end
          end
      end
  end.

(** One decimal digit. *)
Definition digitValue (a : ascii) : option Z :=
  let n := Z.of_N (N_of_ascii a) in
  if ((48 <=? n) && (n <=? 57))%Z then Some (n - 48)%Z else None.

Fixpoint parseDigits (s : string) (acc : Z) : option Z :=
  match s with
  | EmptyString => Some acc
  | String a s' =>
      match digitValue a with
      | Some d => parseDigits s' (acc * 10 + d)%Z
      | None => None
      end
  end.

(** [strconv.Atoi] of the Go standard library: an optional sign, at least
    one decimal digit, nothing else, and a value that fits a 64-bit int. *)
Definition Atoi (s : string) : result Z :=
  let '(neg, digits) :=
    match s with
    | String "-" s' => (true, s')
    | String "+" s' => (false, s')
    | _ => (false, s)
    end in
  match digits with
  | EmptyString => Err (Foreign "invalid syntax")
  | _ =>
      match parseDigits digits 0 with
      | None => Err (Foreign "invalid syntax")
      | Some n =>
          let v := (if neg : bool then - n else n)%Z in
          if ((- 2 ^ 63 <=? v) && (v <? 2 ^ 63))%Z then Ok v
          else Err (Foreign "value out of range")
      end
  end.

(** [fmt.Sprintf("%s:%d", ip, port)] *)
Definition Sprintf_host (ip : string) (port : Z) : string :=
  ip +:+ ":" +:+ pretty port.

(** [v, ok := m[k]]: the zero value and [false] when [k] is absent. *)
Definition commaOk {V} (zero : V) (m : gmap string V) (k : string) : V * bool :=
  match m !! k with
  | Some v => (v, true)
  | None => (zero, false)
  end.

(** ** The environment *)

(** Everything the package calls but does not define. One value of [Env]
    fixes how each collaborator answers during one run. *)
Record Env (Country : Type) : Type := mkEnv {
  (** package constants, declared in another file of the package *)
  QueryTimeout : Z;
  QueryRetryCount : Z;
  (** [NewMasterQuery(filter)]: the host list [mq.Servers], or an error *)
  NewMasterQuery : Filter → result (list string);
  (** one timeout-bound exchange with one host: the pair [(value, err)] *)
  GetInfoForServer : string → Z → option ServerInfo.t * option error;
  GetPlayersForServer : string → Z → slice PlayerInfo.t * option error;
  GetRulesForServer : string → Z → option (gmap string string) * option error;
  (** the retry policy, given the retry set and the number of rounds *)
  RetryFailedInfoReq : slice string → Z → gmap string (option ServerInfo.t);
  RetryFailedPlayersReq : slice string → Z → gmap string (slice PlayerInfo.t);
  RetryFailedRulesReq : slice string → Z → gmap string (option (gmap string string));
  (** the order in which the workers of one batch take the lock *)
  completion : requestType → list string → list string;
  (** [db.OpenCountryDB()], [db.OpenServerDB()]: [None] is success *)
  OpenCountryDB : option error;
  OpenServerDB : option error;
  (** what the database goroutines send on their channel, if anything *)
  GetCountryInfo : string → option (option Country);
  GetIDsForServerList : slice string → option (gmap string Z);
  (** [time.Now()] formatted, and as Unix seconds *)
  NowFormat : string;
  NowUnix : Z;
  (** [os.Create] and [writer.Write]: [None] is success *)
  CreateFile : string → option error;
  WriteFile : json → option error;
  (** encoders of the types whose struct tags are declared elsewhere *)
  MarshalInfo : ServerInfo.t → json;
  MarshalPlayer : PlayerInfo.t → json;
  MarshalCountry : Country → json
}.
Arguments QueryTimeout {Country}.
Arguments QueryRetryCount {Country}.
Arguments NewMasterQuery {Country}.
Arguments GetInfoForServer {Country}.
Arguments GetPlayersForServer {Country}.
Arguments GetRulesForServer {Country}.
Arguments RetryFailedInfoReq {Country}.
Arguments RetryFailedPlayersReq {Country}.
Arguments RetryFailedRulesReq {Country}.
Arguments completion {Country}.
Arguments OpenCountryDB {Country}.
Arguments OpenServerDB {Country}.
Arguments GetCountryInfo {Country}.
Arguments GetIDsForServerList {Country}.
Arguments NowFormat {Country}.
Arguments NowUnix {Country}.
Arguments CreateFile {Country}.
Arguments WriteFile {Country}.
Arguments MarshalInfo {Country}.
Arguments MarshalPlayer {Country}.
Arguments MarshalCountry {Country}.

(** ** The package [steam] *)

Section steam.
Context {Country : Type} (env : Env Country).

(** *** Batch fan-out *)

(** The body of the goroutine started for [host] by [getInfoForServers],
    run under the lock: [m] is the success map, [failed] the retry set. *)
Definition infoWorker (host : string)
    (st : gmap string (option ServerInfo.t) * slice string)
    : M (gmap string (option ServerInfo.t) * slice string) :=
  let '(m, failed) := st in
  _ ← emit (EvQuery infoRequest host);
  let '(serverinfo, err) := GetInfoForServer env host (QueryTimeout env) in
  match err with
  | Some _ => mret (m, append failed host)
  | None => mret (<[host := serverinfo]> m, failed)
  end.

(** The body of the goroutine started by [getPlayersForServers]. *)
Definition playersWorker (host : string)
    (st : gmap string (slice PlayerInfo.t) * slice string)
    : M (gmap string (slice PlayerInfo.t) * slice string) :=
  let '(m, failed) := st in
  _ ← emit (EvQuery playerRequest host);
  let '(players, err) := GetPlayersForServer env host (QueryTimeout env) in
  let store := mret (<[host := players]> m, failed) in
  match err with
  | Some e =>
      (* server could just be empty *)
      if negb (isErrNoPlayers e) then mret (m, append failed host)
      else store
  | None => store
  end.

(** The body of the goroutine started by [getRulesForServers]. *)
Definition rulesWorker (host : string)
    (st : gmap string (option (gmap string string)) * slice string)
    : M (gmap string (option (gmap string string)) * slice string) :=
  let '(m, failed) := st in
  _ ← emit (EvQuery ruleRequest host);
  let '(rules, err) := GetRulesForServer env host (QueryTimeout env) in
  let store := mret (<[host := rules]> m, failed) in
  match err with
  | Some e =>
      (* server might have no rules *)
      if negb (isErrNoRules e) then mret (m, append failed host)
      else store
  | None => store
  end.

(** The state at [wg.Wait()]: every worker has run once, in the order
    [order] in which they took the lock; the map starts empty and
    [failed] starts nil. *)
Definition infoFanOut (order : list string) :=
  forRange infoWorker order (∅, None).
Definition playersFanOut (order : list string) :=
  forRange playersWorker order (∅, None).
Definition rulesFanOut (order : list string) :=
  forRange rulesWorker order (∅, None).

(** [for k, v := range retried { m[k] = v }] *)
Definition mergeInto {V} (retried m : gmap string V) : gmap string V :=
  retried ∪ m.

Definition getInfoForServers (serverlist : list string)
    : M (gmap string (option ServerInfo.t)) :=
  '(m, failed) ← infoFanOut (completion env infoRequest serverlist);
  _ ← emit (EvRetry infoRequest failed 3);
  let retried := RetryFailedInfoReq env failed 3 in
  mret (mergeInto retried m).

Definition getPlayersForServers (serverlist : list string)
    : M (gmap string (slice PlayerInfo.t)) :=
  '(m, failed) ← playersFanOut (completion env playerRequest serverlist);
  _ ← emit (EvRetry playerRequest failed (QueryRetryCount env));
  let retried := RetryFailedPlayersReq env failed (QueryRetryCount env) in
  mret (mergeInto retried m).

Definition getRulesForServers (serverlist : list string)
    : M (gmap string (option (gmap string string))) :=
  '(m, failed) ← rulesFanOut (completion env ruleRequest serverlist);
  _ ← emit (EvRetry ruleRequest failed (QueryRetryCount env));
  let retried := RetryFailedRulesReq env failed (QueryRetryCount env) in
  mret (mergeInto retried m).

(** *** The server-list assembler *)

(** The value of [success] at the end of the chain of assignments in the
    loop of [buildServerList], from the three comma-ok flags. *)
Definition hostSuccess (filter : Filter) (iok pok rok : bool) : bool :=
  (* default, unless we should skip *)
  let success := iok && rok && pok in
  let success := if HasIgnoreInfo filter then pok && rok else success in
  let success := if HasIgnorePlayers filter then iok && rok else success in
  let success := if HasIgnoreRules filter then iok && pok else success in
  let success :=
    if HasIgnoreInfo filter && HasIgnorePlayers filter then rok else success in
  let success :=
    if HasIgnoreInfo filter && HasIgnoreRules filter then pok else success in
  let success :=
    if HasIgnorePlayers filter && HasIgnoreRules filter then iok else success in
  success.

(** The variables of [buildServerList] that live across iterations. *)
Record loopState : Type := mkLoop {
  Servers : slice (server.t Country);
  FailedServers : slice string;
  dbhosts : slice string;
  useEmptyInfo : bool;
  successcount : Z
}.

(** The [if success { ... }] branch up to the append: the new server and
    the new [dbhosts]. [info.ExtraData.Port] dereferences [info]. *)
Definition successBranch (host : string) (info : option ServerInfo.t)
    (players : slice PlayerInfo.t) (rules : option (gmap string string))
    (useEmptyInfo : bool) (i : InfoValue) (dbhosts : slice string)
    : M (server.t Country * slice string) :=
  let srvInfo := if useEmptyInfo then i else InfoPointer info in
  match SplitHostPort host with
  | Ok (ip, port) =>
      match info with
      | None => panic
      | Some inf =>
          let gameport := ExtraData.Port (ServerInfo.ExtraData inf) in
          let '(srvHost, dbhosts) :=
            if bool_decide (gameport ≠ 0%Z) then
              (* use game port, not steam port *)
              let h := Sprintf_host ip gameport in
              (h, append dbhosts h)
            else (host, dbhosts) in
          let srvPort := match Atoi port with Ok p => p | Err _ => 0%Z end in
          _ ← emit (EvGetCountryInfo ip);
          loc ← recv (GetCountryInfo env ip);
          mret (server.mk 0%Z srvHost ip srvPort loc srvInfo players rules,
                dbhosts)
      end
  | Err _ =>
      mret (server.mk 0%Z "" "" 0%Z None srvInfo players rules, dbhosts)
  end.

(** One iteration of [for _, host := range servers]. *)
Definition hostBody (filter : Filter)
    (infomap : gmap string (option ServerInfo.t))
    (rulemap : gmap string (option (gmap string string)))
    (playermap : gmap string (slice PlayerInfo.t))
    (host : string) (st : loopState) : M loopState :=
  let i := InfoNil in
  let '(info, iok) := commaOk None infomap host in
  let '(players, pok) := commaOk None playermap host in
  let players :=
    match players with
    | None => make_slice (* empty array instead of nil (null) in json *)
    | Some _ => players
    end in
  let '(rules, rok) := commaOk None rulemap host in
  let success := hostSuccess filter iok pok rok in
  let '(useEmptyInfo, i) :=
    if HasIgnoreInfo filter then (true, InfoEmptyMap)
    else (useEmptyInfo st, i) in
  let rules := if HasIgnoreRules filter then Some ∅ else rules in
  if success then
    '(srv, dbhosts) ←
      successBranch host info players rules useEmptyInfo i (dbhosts st);
    mret (mkLoop (append (Servers st) srv) (FailedServers st) dbhosts
                 useEmptyInfo (successcount st + 1)%Z)
  else
    mret (mkLoop (Servers st) (append (FailedServers st) host) (dbhosts st)
                 useEmptyInfo (successcount st)).

(** [toSet = append(toSet, s.Host)] for every server *)
Definition hostsOf (servers : slice (server.t Country)) : slice string :=
  foldl (λ toSet s, append toSet (server.Host s)) None (elems servers).

(** [if m[s.Host] != 0 { s.ID = m[s.Host] }] *)
Definition assignID (m : gmap string Z) (s : server.t Country) : server.t Country :=
  let id := default 0%Z (m !! server.Host s) in
  if bool_decide (id ≠ 0%Z) then server.setID id s else s.

Definition setServerIDForList (sl : serverList.t Country)
    : M (serverList.t Country) :=
  let toSet := hostsOf (serverList.Servers sl) in
  _ ← emit (EvGetIDsForServerList toSet);
  m ← recv (GetIDsForServerList env toSet);
  mret (serverList.mk
          (serverList.RetrievedAt sl) (serverList.RetrievedTimeStamp sl)
          (serverList.ServerCount sl)
          (forEachPtr (assignID m) (serverList.Servers sl))
          (serverList.FailedCount sl) (serverList.FailedServers sl)).

(** [filter.HasIgnoreInfo && filter.HasIgnorePlayers && filter.HasIgnoreRules] *)
Definition ignoresAll (filter : Filter) : bool :=
  HasIgnoreInfo filter && HasIgnorePlayers filter && HasIgnoreRules filter.

Definition buildServerList (filter : Filter) (servers : list string)
    (infomap : gmap string (option ServerInfo.t))
    (rulemap : gmap string (option (gmap string string)))
    (playermap : gmap string (slice PlayerInfo.t))
    : M (result (serverList.t Country)) :=
  (* No point in ignoring all three requests *)
  if ignoresAll filter then
    mret (Err (LogAppErrorf "Cannot ignore all three A2S_ requests!"))
  else
    _ ← emit EvOpenCountryDB;
    match OpenCountryDB env with
    | Some err => mret (Err (LogAppError err))
    | None =>
        defer EvCloseCountryDB (
          _ ← emit EvOpenServerDB;
          match OpenServerDB env with
          | Some err => mret (Err (LogAppError err))
          | None =>
              st ← forRange (hostBody filter infomap rulemap playermap) servers
                     (mkLoop make_slice None None false 0%Z);
              _ ← emit (EvAddServersToDB (dbhosts st));
              let sl :=
                serverList.mk (NowFormat env) (NowUnix env)
                  (len (Servers st)) (Servers st)
                  (len (FailedServers st)) (FailedServers st) in
              sl ← setServerIDForList sl;
              mret (Ok sl)
          end)
    end.

(** *** Serialisation and [retrieve] *)

(** [json.Marshal] of a slice: [null] for nil, an array otherwise. *)
Definition MarshalSlice {A} (f : A → json) (s : slice A) : json :=
  match s with
  | None => JNull
  | Some l => JArray (f <$> l)
  end.

(** [json.Marshal] of the [Info] interface value: a nil interface and a
    nil pointer are [null]; the empty map is the empty object. *)
Definition MarshalInfoValue (i : InfoValue) : json :=
  match i with
  | InfoNil => JNull
  | InfoPointer None => JNull
  | InfoPointer (Some info) => MarshalInfo env info
  | InfoEmptyMap => JObject []
  end.

(** [json.Marshal] of a [server]: the fields in declaration order, each
    under the name of its [json] tag. *)
Definition MarshalServer (s : server.t Country) : json :=
  JObject [
    ("serverId", JNumber (server.ID s));
    ("address", JString (server.Host s));
    ("ip", JString (server.IP s));
    ("port", JNumber (server.Port s));
    ("location", from_option (MarshalCountry env) JNull (server.CountryInfo s));
    ("info", MarshalInfoValue (server.Info s));
    ("players", MarshalSlice (MarshalPlayer env) (server.Players s));
    ("rules", from_option JStringMap JNull (server.Rules s))
  ].

(** [json.Marshal] of a [serverList]. *)
Definition MarshalServerList (sl : serverList.t Country) : json :=
  JObject [
    ("retrievalDate", JString (serverList.RetrievedAt sl));
    ("timestamp", JNumber (serverList.RetrievedTimeStamp sl));
    ("serverCount", JNumber (serverList.ServerCount sl));
    ("servers", MarshalSlice MarshalServer (serverList.Servers sl));
    ("failedCount", JNumber (serverList.FailedCount sl));
    ("failedServers", MarshalSlice JString (serverList.FailedServers sl))
  ].

(** [retrieve]: the error it returns, [None] for nil. The three maps are
    declared nil and filled only for the kinds that are not skipped.
    [json.Marshal] cannot fail on a [serverList], so its error branch is
    left out. *)
Definition retrieve (filter : Filter) : M (option error) :=
  _ ← emit EvMasterQuery;
  match NewMasterQuery env filter with
  | Err err => mret (Some (LogAppErrorfWrap "Master server error: %s" err))
  | Ok mqServers =>
      if ignoresAll filter then
        mret (Some (LogAppErrorf "Cannot ignore all three AS2 requests!"))
      else
        players ←
          (if negb (HasIgnorePlayers filter) then getPlayersForServers mqServers
           else mret ∅);
        rules ←
          (if negb (HasIgnoreRules filter) then getRulesForServers mqServers
           else mret ∅);
        info ←
          (if negb (HasIgnoreInfo filter) then getInfoForServers mqServers
           else mret ∅);
        built ← buildServerList filter mqServers info rules players;
        match built with
        | Err err => mret (Some (LogAppError err))
        | Ok serverlist =>
            let j := MarshalServerList serverlist in
            _ ← emit (EvCreateFile "servers.json");
            match CreateFile env "servers.json" with
            | Some err =>
                mret (Some (LogAppErrorfWrap "Error creating json file: %s" err))
            | None =>
                _ ← emit (EvWriteFile j);
                match WriteFile env j with
                | Some err =>
                    mret (Some (LogAppErrorfWrap "Error writing json file: %s" err))
                | None => mret None
                end
            end
        end
  end.

End steam.

(** ** The package [models] *)

Module models.

(** [APIServerList]; [APIServer] is the type of its entries. *)
Record APIServerList (APIServer : Type) : Type := mkAPIServerList {
  RetrievedAt : string;
  RetrievedTimeStamp : Z;
  ServerCount : Z;
  Servers : slice APIServer;
  FailedCount : Z;
  FailedServers : slice string
}.
Arguments mkAPIServerList {APIServer}.
Arguments RetrievedAt {APIServer}.
Arguments RetrievedTimeStamp {APIServer}.
Arguments ServerCount {APIServer}.
Arguments Servers {APIServer}.
Arguments FailedCount {APIServer}.
Arguments FailedServers {APIServer}.

(** [GetDefaultServerList]; [nowFormat] and [nowUnix] are the two readings
    of [time.Now()]. *)
Definition GetDefaultServerList {APIServer} (nowFormat : string) (nowUnix : Z)
    : APIServerList APIServer :=
  {| RetrievedAt := nowFormat;
     RetrievedTimeStamp := nowUnix;
     ServerCount := 0;
     Servers := make_slice;
     FailedCount := 0;
     FailedServers := make_slice |}.

(** [json.Marshal] of an [APIServerList], given the encoder of its
    entries: the fields in declaration order under their [json] tags. *)
Definition MarshalAPIServerList {APIServer} (MarshalAPIServer : APIServer → json)
    (sl : APIServerList APIServer) : json :=
  JObject [
    ("retrievalDate", JString (RetrievedAt sl));
    ("timestamp", JNumber (RetrievedTimeStamp sl));
    ("serverCount", JNumber (ServerCount sl));
    ("servers", match Servers sl with
                | None => JNull
                | Some l => JArray (MarshalAPIServer <$> l)
                end);
    ("failedCount", JNumber (FailedCount sl));
    ("failedServers", match FailedServers sl with
                      | None => JNull
                      | Some l => JArray (JString <$> l)
                      end)
  ].

End models.

(** ** The wire codec: info replies *)

(** A reader over the bytes of a datagram: the value read and the bytes
    left, or nothing when the datagram ends too early. *)
Definition Reader (A : Type) : Type := list Z → option (A * list Z).

#[global] Instance Reader_ret : MRet Reader := λ A a bs, Some (a, bs).
#[global] Instance Reader_bind : MBind Reader := λ A B k r bs,
  match r bs with
  | Some (a, rest) => k a rest
  | None => None
  end.

Definition readByte : Reader Z := λ bs,
  match bs with
  | b :: rest => Some (b, rest)
  | [] => None
  end.

(** An unsigned little-endian integer of [n] bytes. *)
Fixpoint readLE (n : nat) : Reader Z :=
  match n with
  | O => mret 0%Z
  | S n' => lo ← readByte; hi ← readLE n'; mret (lo + 256 * hi)%Z
  end.

(** A string that ends at the first zero byte. *)
Fixpoint readString (bs : list Z) : option (string * list Z) :=
  match bs with
  | [] => None
  | b :: rest =>
      if (b =? 0)%Z then Some (EmptyString, rest)
      else
        match readString rest with
        | Some (s, rest') => Some (String (ascii_of_N (Z.to_N b)) s, rest')
        | None => None
        end
  end.

(** The dedicated/listen indicator: [d], [l], [p]. *)
Definition serverTypeOf (b : Z) : string :=
  if (b =? 0x64)%Z then "dedicated"
  else if (b =? 0x6C)%Z then "non-dedicated"
  else if (b =? 0x70)%Z then "SourceTV relay"
  else "".

(** The OS indicator: [l], [w], [m] or [o]. *)
Definition environmentOf (b : Z) : string :=
  if (b =? 0x6C)%Z then "Linux"
  else if (b =? 0x77)%Z then "Windows"
  else if (b =? 0x6D)%Z || (b =? 0x6F)%Z then "Mac"
  else "".

(** A field of the extended block: read only when its bit is set in the
    flag byte, otherwise left at the zero value. *)
Definition readIf {A} (flags mask : Z) (zero : A) (r : Reader A) : Reader A :=
  if (Z.land flags mask =? 0)%Z then mret zero else r.

(** The extended block, announced by a trailing flag byte if there is one. *)
Definition readExtraData : Reader ExtraData.t := λ bs,
  match bs with
  | [] => Some (ExtraData.mk 0 0 0 "" "" 0, [])
  | flags :: rest =>
      (port ← readIf flags 0x80 0%Z (readLE 2);
       steamid ← readIf flags 0x10 0%Z (readLE 8);
       tvport ← readIf flags 0x40 0%Z (readLE 2);
       tvname ← readIf flags 0x40 "" readString;
       keywords ← readIf flags 0x20 "" readString;
       gameid ← readIf flags 0x01 0%Z (readLE 8);
       mret (ExtraData.mk port steamid tvport tvname keywords gameid)) rest
  end.

(** The fields of an info reply after the marker and the type byte, in
    protocol order. *)
Definition readServerInfo : Reader ServerInfo.t :=
  protocol ← readByte;
  name ← readString;
  mapname ← readString;
  folder ← readString;
  game ← readString;
  id ← readLE 2;
  players ← readByte;
  maxplayers ← readByte;
  bots ← readByte;
  servertype ← readByte;
  environment ← readByte;
  visibility ← readByte;
  vac ← readByte;
  version ← readString;
  extra ← readExtraData;
  mret (ServerInfo.mk protocol name mapname folder game id players maxplayers
          bots (serverTypeOf servertype) (environmentOf environment)
          visibility vac version extra).

(** Modelled from the spec: [parseServerInfo], the decoder of an info
    reply, is called by the test [TestParseServerInfo] but its file is not
    among the sources. Section 4.1 of the specification gives the layout:
    the 4-byte broadcast marker, the type byte, then the fields in fixed
    protocol order (version, name, map, folder, game, app id, players, max
    players, bots, dedicated/listen indicator, OS indicator, password flag,
    anti-cheat flag, version) and a trailing flag byte selecting the extra
    fields that follow (port, platform id, spectator port and name,
    keywords, 64-bit game id). Field widths, bit values and the letters of
    the two indicators are those of the A2S_INFO message the specification
    refers to. An unrecognised header is [ErrNoInfo]; a datagram that ends
    inside a field is a malformed packet. *)
Definition parseServerInfo (data : list Z) : result ServerInfo.t :=
  match data with
  | 0xFF%Z :: 0xFF%Z :: 0xFF%Z :: 0xFF%Z :: 0x49%Z :: body =>
      match readServerInfo body with
      | Some (info, _) => Ok info
      | None => Err (Foreign "malformed packet")
      end
  | _ => Err ErrNoInfo
  end.

(** The packet of [TestParseServerInfo]: the literal of the test ends with
    35 zero bytes, written here with [replicate]. *)
Definition fixture : list Z :=
  [ 0xFF; 0xFF; 0xFF; 0xFF; 0x49; 0x11; 0x71; 0x6C; 0x2E; 0x73; 0x79; 0x6E;
    0x63; 0x6F; 0x72; 0x65; 0x2E; 0x6F; 0x72; 0x67; 0x20; 0x2D; 0x20; 0x55;
    0x53; 0x20; 0x43; 0x45; 0x4E; 0x54; 0x52; 0x41; 0x4C; 0x20; 0x23; 0x31;
    0x00; 0x74; 0x68; 0x75; 0x6E; 0x64; 0x65; 0x72; 0x73; 0x74; 0x72; 0x75;
    0x63; 0x6B; 0x00; 0x62; 0x61; 0x73; 0x65; 0x71; 0x33; 0x00; 0x43; 0x6C;
    0x61; 0x6E; 0x20; 0x41; 0x72; 0x65; 0x6E; 0x61; 0x00; 0x00; 0x00; 0x02;
    0x10; 0x00; 0x64; 0x6C; 0x00; 0x01; 0x31; 0x30; 0x36; 0x33; 0x00; 0xB1;
    0x38; 0x6D; 0x02; 0xF8; 0xC1; 0x4D; 0x7B; 0x17; 0x40; 0x01; 0x63; 0x6C;
    0x61; 0x6E; 0x61; 0x72; 0x65; 0x6E; 0x61; 0x2C; 0x73; 0x79; 0x6E; 0x63;
    0x6F; 0x72; 0x65; 0x2C; 0x74; 0x65; 0x78; 0x61; 0x73; 0x00; 0x48; 0x4F;
    0x04 ]%Z
  ++ replicate 35 0%Z.


(** ** The package [db]: the server identification database *)

Module db.

(** A row of the table [servers]. *)
Record row : Type := mkRow {
  server_id : Z;
  host : string;
  game : string
}.

(** [models.DbServer] and [models.DbServerID], as [GetIDsAPIQuery] fills
    them. *)
Record DbServer : Type := mkDbServer {
  ID : Z;
  Host : string;
  Game : string
}.

Record DbServerID : Type := mkDbServerID {
  ServerCount : Z;
  Servers : slice DbServer
}.

(** What the functions of the package rely on and do not define: the
    failures of the SQL driver, two comparisons made by the SQL engine, the
    id the engine gives to an inserted row, the order in which Go ranges
    over a map, and the name of the unspecified game. *)
Record Engine : Type := mkEngine {
  (** [sdb.db.Query(statement, args...)] returns an error *)
  QueryErr : string → list string → option error;
  (** [rows.Scan] returns an error on a row *)
  ScanErr : row → option error;
  (** [sdb.db.Begin()], [tx.Exec] of the insert of a host and a game,
      [tx.Rollback()], [tx.Commit()] return an error *)
  BeginErr : option error;
  ExecErr : string → string → option error;
  RollbackErr : option error;
  CommitErr : option error;
  (** [server_id = ?] with a text argument: the integer the text is read as *)
  IdOfText : string → option Z;
  (** [host LIKE ?]: the pattern, then the host *)
  Like : string → string → bool;
  (** the [server_id] given to a row inserted without one *)
  NextID : list row → Z;
  (** [for k, v := range m] *)
  Range : gmap string string → list (string * string);
  (** [filters.GameUnspecified.String()] *)
  GameUnspecified : string
}.

Section queries.
Context (eng : Engine).

(** [for rows.Next() { rows.Scan(&v) }]: the value scanned last, the
    initial one when there is no row, or the error of a scan. *)
Fixpoint scanRows {A} (read : row → A) (rows : list row) (v : A) : result A :=
  match rows with
  | [] => Ok v
  | r :: rest =>
      match ScanErr eng r with
      | Some err => Err err
      | None => scanRows read rest (read r)
      end
  end.

(** [... WHERE host =? AND GAME =? LIMIT 1] *)
Definition whereHostGame (tbl : list row) (h g : string) : list row :=
  take 1 (filter (λ r, host r = h ∧ game r = g) tbl).

(** [... WHERE server_id =? LIMIT 1] *)
Definition whereID (tbl : list row) (id : string) : list row :=
  take 1 (filter (λ r, IdOfText eng id = Some (server_id r)) tbl).

(** [... WHERE host LIKE ?] *)
Definition whereHostLike (tbl : list row) (pattern : string) : list row :=
  filter (λ r, Like eng pattern (host r) = true) tbl.

Definition serverExists (tbl : list row) (h g : string) : result bool :=
  match QueryErr eng
          "SELECT host, game FROM servers WHERE host =? AND GAME =? LIMIT 1"
          [h; g] with
  | Some err =>
      Err (LogAppErrorfWrap
             "serverExists: Error querying database for host %s and game %s: %s"
             err)
  | None =>
      match scanRows (λ r, (host r, game r)) (whereHostGame tbl h g) ("", "") with
      | Err err =>
          Err (LogAppErrorfWrap
                 "serverExists: Error querying database for host %s and game %s: %s"
                 err)
      | Ok (h', g') =>
          if bool_decide (h' ≠ "" ∧ g' ≠ "") then Ok true else Ok false
      end
  end.

Definition getHostAndGame (tbl : list row) (id : string) : result (string * string) :=
  match QueryErr eng
          "SELECT host, game FROM servers WHERE server_id =? LIMIT 1" [id] with
  | Some err =>
      Err (LogAppErrorfWrap
             "getHostAndGame: Error querying database for id %s: %s" err)
  | None =>
      match scanRows (λ r, (host r, game r)) (whereID tbl id) ("", "") with
      | Err err =>
          Err (LogAppErrorfWrap
                 "getHostAndGame: Error querying database for id %s: %s" err)
      | Ok hg => Ok hg
      end
  end.

(** The first loop of [AddServersToDB]: one step, then the whole map. *)
Definition toInsertStep (tbl : list row) (toInsert : gmap string string)
    (hg : string * string) : gmap string string :=
  let '(h, g) := hg in
  (* don't add the unspecified game *)
  if String.eqb g (GameUnspecified eng) then toInsert
  else
    match serverExists tbl h g with
    | Err _ => toInsert
    | Ok true => toInsert
    | Ok false => <[h := g]> toInsert
    end.

Definition toInsertOf (tbl : list row) (hostsgames : gmap string string)
    : gmap string string :=
  foldl (toInsertStep tbl) ∅ (Range eng hostsgames).

(** The second loop of [AddServersToDB], inside the transaction: the
    rows of the transaction and [txexecerr]. *)
Fixpoint execInserts (pending : list (string * string)) (tx : list row)
    : list row * option error :=
  match pending with
  | [] => (tx, None)
  | (h, g) :: rest =>
      match ExecErr eng h g with
      | Some err => (tx, Some err)
      | None => execInserts rest (tx ++ [mkRow (NextID eng tx) h g])
      end
  end.

(** [AddServersToDB]: the table it leaves. A transaction that is rolled
    back, or whose commit fails, leaves the table as it was; after a
    rollback the commit is still attempted, on a finished transaction. *)
Definition AddServersToDB (tbl : list row) (hostsgames : gmap string string)
    : list row :=
  let toInsert := toInsertOf tbl hostsgames in
  match BeginErr eng with
  | Some _ => tbl
  | None =>
      let '(tx, txexecerr) := execInserts (Range eng toInsert) tbl in
      match txexecerr with
      | Some _ =>
          match RollbackErr eng with
          | Some _ => tbl
          | None => tbl
          end
      | None =>
          match CommitErr eng with
          | Some _ => tbl
          | None => tx
          end
      end
  end.

(** The loop of [GetIDsForServerList]: [None] when the function returns
    before it sends. *)
Fixpoint idsLoop (tbl : list row) (entries : list (string * string))
    (m : gmap string Z) : option (gmap string Z) :=
  match entries with
  | [] => Some m
  | (h, g) :: rest =>
      match QueryErr eng
              "SELECT server_id FROM servers WHERE host =? AND game =? LIMIT 1"
              [h; g] with
      | Some _ => None
      | None =>
          match scanRows server_id (whereHostGame tbl h g) 0%Z with
          | Err _ => None
          | Ok id => idsLoop tbl rest (<[h := id]> m)
          end
      end
  end.

(** [GetIDsForServerList]: what is sent on [result], if anything. *)
Definition GetIDsForServerList (tbl : list row) (hosts : gmap string string)
    : option (gmap string Z) :=
  idsLoop tbl (Range eng hosts) ∅.

(** The inner loop of [GetIDsAPIQuery] over the rows of one query. *)
Fixpoint appendRows (rows : list row) (servers : slice DbServer)
    : option (slice DbServer) :=
  match rows with
  | [] => Some servers
  | r :: rest =>
      match ScanErr eng r with
      | Some _ => None
      | None =>
          appendRows rest
            (append servers (mkDbServer (server_id r) (host r) (game r)))
      end
  end.

(** The outer loop of [GetIDsAPIQuery]. *)
Fixpoint apiQueryLoop (tbl : list row) (hosts : list string)
    (servers : slice DbServer) : option (slice DbServer) :=
  match hosts with
  | [] => Some servers
  | h :: rest =>
      let pattern := "%" +:+ h +:+ "%" in
      match QueryErr eng
              "SELECT server_id, host, game FROM servers WHERE host LIKE ?"
              [pattern] with
      | Some _ => None
      | None =>
          match appendRows (whereHostLike tbl pattern) servers with
          | None => None
          | Some servers' => apiQueryLoop tbl rest servers'
          end
      end
  end.

(** [GetIDsAPIQuery]: what is sent on [result], if anything. *)
Definition GetIDsAPIQuery (tbl : list row) (hosts : list string)
    : option DbServerID :=
  match apiQueryLoop tbl hosts None with
  | None => None
  | Some servers => Some (mkDbServerID (len servers) servers)
  end.

(** The loop of [GetHostsAndGameFromIDAPIQuery]. *)
Fixpoint hostsLoop (tbl : list row) (ids : list string)
    (hosts : gmap string string) : option (gmap string string) :=
  match ids with
  | [] => Some hosts
  | id :: rest =>
      match getHostAndGame tbl id with
      | Err _ => None
      | Ok (h, g) =>
          if bool_decide (h = "" ∧ g = "") then hostsLoop tbl rest hosts
          else hostsLoop tbl rest (<[h := g]> hosts)
      end
  end.

(** [GetHostsAndGameFromIDAPIQuery]: what is sent on [result], if
    anything. *)
Definition GetHostsAndGameFromIDAPIQuery (tbl : list row) (ids : list string)
    : option (gmap string string) :=
  hostsLoop tbl ids ∅.

End queries.

End db.

(** ** Vocabulary of the database properties *)

(** Queries and scans never fail. *)
Definition readsOk (eng : db.Engine) : Prop :=
  (∀ stmt args, db.QueryErr eng stmt args = None) ∧
  (∀ r, db.ScanErr eng r = None).

(** A transaction can begin, insert and commit. *)
Definition writesOk (eng : db.Engine) : Prop :=
  db.BeginErr eng = None ∧
  (∀ h g, db.ExecErr eng h g = None) ∧
  db.CommitErr eng = None.

(** Ranging over a map visits each of its entries once, in some order. *)
Definition rangesMaps (eng : db.Engine) : Prop :=
  ∀ m, db.Range eng m ≡ₚ map_to_list m.

(** The table has a row for the host and the game. *)
Definition stored (tbl : list db.row) (h g : string) : Prop :=
  Exists (λ r, db.host r = h ∧ db.game r = g) tbl.

(** The id of the first row for the host and the game, 0 without one. *)
Definition idFor (tbl : list db.row) (h g : string) : Z :=
  from_option db.server_id 0%Z
    (head (filter (λ r, db.host r = h ∧ db.game r = g) tbl)).

(** Whether the first loop of [AddServersToDB] keeps the entry. *)
Definition insertable (eng : db.Engine) (tbl : list db.row) (h g : string) : bool :=
  negb (String.eqb g (db.GameUnspecified eng)) &&
  match db.serverExists eng tbl h g with
  | Ok false => true
  | _ => false
  end.

(** An engine without failures, and a table with one row. *)
Definition sampleEngine : db.Engine :=
  {| db.QueryErr := λ _ _, None;
     db.ScanErr := λ _, None;
     db.BeginErr := None;
     db.ExecErr := λ _ _, None;
     db.RollbackErr := None;
     db.CommitErr := None;
     db.IdOfText := λ id, match Atoi id with Ok n => Some n | Err _ => None end;
     db.Like := λ pattern h, String.eqb pattern ("%" +:+ h +:+ "%");
     db.NextID := λ tbl, (1 + foldr Z.max 0 (db.server_id <$> tbl))%Z;
     db.Range := map_to_list;
     db.GameUnspecified := "Unspecified" |}.

Definition sampleTable : list db.row :=
  [db.mkRow 1 "10.0.0.1:27016" "QuakeLive"].

Definition sampleHostsGames : gmap string string :=
  <["10.0.0.1:27016" := "QuakeLive"]> (<["10.0.0.2:27015" := "Reflex"]> ∅).

(** ** Auxiliary definitions of the fan-out proofs *)

Section fanout_aux.
Context {Country : Type} (env : Env Country).

(** The shape the three workers share: [answer host] is what the exchange
    returned and whether the worker sends the host to the retry set. *)
Definition collect {V} (kind : requestType) (answer : string → V * bool)
    (host : string) (st : gmap string V * slice string)
    : M (gmap string V * slice string) :=
  _ ← emit (EvQuery kind host);
  if (answer host).2 then mret (st.1, append st.2 host)
  else mret (<[host := (answer host).1]> st.1, st.2).

(** Whether a worker sends its host to the retry set. *)
Definition playersAnswer (host : string) : slice PlayerInfo.t * bool :=
  let '(players, err) := GetPlayersForServer env host (QueryTimeout env) in
  (players, match err with Some e => negb (isErrNoPlayers e) | None => false end).

Definition rulesAnswer (host : string) : option (gmap string string) * bool :=
  let '(rules, err) := GetRulesForServer env host (QueryTimeout env) in
  (rules, match err with Some e => negb (isErrNoRules e) | None => false end).


End fanout_aux.

(** ** Vocabulary of the assembler statements *)

(** The comma-ok flag of a lookup. *)
Definition present {V} (m : gmap string V) (host : string) : bool :=
  bool_decide (is_Some (m !! host)).

Section assembler_aux.
Context {Country : Type}.
Variables (flt : Filter)
  (infomap : gmap string (option ServerInfo.t))
  (rulemap : gmap string (option (gmap string string)))
  (playermap : gmap string (slice PlayerInfo.t)).

(** The value of [success] for [host], from the three maps. *)
Definition succeeds (host : string) : bool :=
  hostSuccess flt (present infomap host) (present playermap host)
    (present rulemap host).

(** What the loop of [buildServerList] has put in the entry [s] appended
    for [host], [recorded] being the hosts collected in [dbhosts]. *)
Definition entryFor (recorded : list string) (host : string)
    (s : server.t Country) : Prop :=
  server.Players s = Some (elems (default None (playermap !! host))) ∧
  server.Rules s =
    (if HasIgnoreRules flt then Some ∅ else default None (rulemap !! host)) ∧
  server.Info s =
    (if HasIgnoreInfo flt then InfoEmptyMap
     else InfoPointer (default None (infomap !! host))) ∧
  match SplitHostPort host with
  | Err _ => server.Host s = "" ∧ server.IP s = ""
  | Ok (ip, port) =>
      server.IP s = ip ∧
      ∃ inf, infomap !! host = Some (Some inf) ∧
        let gameport := ExtraData.Port (ServerInfo.ExtraData inf) in
        if bool_decide (gameport ≠ 0%Z)
        then server.Host s = Sprintf_host ip gameport ∧
             Sprintf_host ip gameport ∈ recorded
        else server.Host s = host
  end.

(** [host] cannot stop the loop: if it is successful and its address
    splits, its info is not nil and the country lookup replies. *)
Definition hostReady (env : Env Country) (host : string) : Prop :=
  succeeds host = true →
  ∀ ip port, SplitHostPort host = Ok (ip, port) →
    is_Some (default None (infomap !! host)) ∧ is_Some (GetCountryInfo env ip).

End assembler_aux.

(** ** Sample runs *)

(** Three hosts: [hostA] answers all three kinds and advertises game port
    27016; [hostB] answers info (no game port), has no players and no
    rules; [hostC] answers nothing. [host6] is an IPv6 endpoint whose game
    port is its query port. *)
Definition hostA : string := "10.0.0.1:27015".
Definition hostB : string := "10.0.0.2:27015".
Definition hostC : string := "10.0.0.3:27015".
Definition host6 : string := "[::1]:27015".
Definition sampleHosts : list string := [hostA; hostB; hostC].

Definition sampleInfo (gameport : Z) : ServerInfo.t :=
  ServerInfo.mk 17 "sample" "thunderstruck" "baseq3" "Clan Arena" 0 2 16 0
    "dedicated" "Linux" 0 1 "1063" (ExtraData.mk gameport 0 0 "" "" 0).

Definition samplePlayer : PlayerInfo.t := PlayerInfo.mk "player" 10 "1h2m".

Definition sampleInfoMap : gmap string (option ServerInfo.t) :=
  <[hostA := Some (sampleInfo 27016)]> (<[hostB := Some (sampleInfo 0)]> ∅).
Definition samplePlayerMap : gmap string (slice PlayerInfo.t) :=
  <[hostA := Some [samplePlayer]]> (<[hostB := None]> ∅).
Definition sampleRuleMap : gmap string (option (gmap string string)) :=
  <[hostA := Some (<["sv_gravity" := "800"]> ∅)]> (<[hostB := None]> ∅).

(** The three exchanges with the sample hosts. *)
Definition sampleGetInfo (host : string) (timeout : Z)
    : option ServerInfo.t * option error :=
  if String.eqb host hostA then (Some (sampleInfo 27016), None)
  else if String.eqb host hostB then (Some (sampleInfo 0), None)
  else (None, Some ErrNoInfo).
Definition sampleGetPlayers (host : string) (timeout : Z)
    : slice PlayerInfo.t * option error :=
  if String.eqb host hostA then (Some [samplePlayer], None)
  else if String.eqb host hostB then (None, Some ErrNoPlayers)
  else (None, Some (Foreign "i/o timeout")).
Definition sampleGetRules (host : string) (timeout : Z)
    : option (gmap string string) * option error :=
  if String.eqb host hostA then (Some (<["sv_gravity" := "800"]> ∅), None)
  else if String.eqb host hostB then (None, Some ErrNoRules)
  else (None, Some (Foreign "i/o timeout")).

(** An environment in which the master query answers [master], every
    database call succeeds and replies, and no retry round recovers a host;
    the workers of a batch finish in reverse order. *)
Definition sampleEnvWith (master : result (list string)) : Env string :=
  {| QueryTimeout := 3;
     QueryRetryCount := 2;
     NewMasterQuery := λ _, master;
     GetInfoForServer := sampleGetInfo;
     GetPlayersForServer := sampleGetPlayers;
     GetRulesForServer := sampleGetRules;
     RetryFailedInfoReq := λ _ _, ∅;
     RetryFailedPlayersReq := λ _ _, ∅;
     RetryFailedRulesReq := λ _ _, ∅;
     completion := λ _ hosts, reverse hosts;
     OpenCountryDB := None;
     OpenServerDB := None;
     GetCountryInfo := λ _, Some (Some "US");
     GetIDsForServerList := λ _, Some (<["10.0.0.1:27016" := 7%Z]> ∅);
     NowFormat := "Sat Oct 31 00:00:00 2026 EST";
     NowUnix := 1793404800;
     CreateFile := λ _, None;
     WriteFile := λ _, None;
     MarshalInfo := λ i, JObject [("name", JString (ServerInfo.Name i))];
     MarshalPlayer := λ p, JObject [("name", JString (PlayerInfo.Name p))];
     MarshalCountry := λ c, JObject [("countryCode", JString c)] |}.

Definition sampleEnv : Env string := sampleEnvWith (Ok sampleHosts).
Definition masterDownEnv : Env string := sampleEnvWith (Err (Foreign "i/o timeout")).


(** [env] with the two databases opening as given. *)
Definition withDatabases {Country} (cdb sdb : option error) (env : Env Country)
    : Env Country :=
  {| QueryTimeout := QueryTimeout env;
     QueryRetryCount := QueryRetryCount env;
     NewMasterQuery := NewMasterQuery env;
     GetInfoForServer := GetInfoForServer env;
     GetPlayersForServer := GetPlayersForServer env;
     GetRulesForServer := GetRulesForServer env;
     RetryFailedInfoReq := RetryFailedInfoReq env;
     RetryFailedPlayersReq := RetryFailedPlayersReq env;
     RetryFailedRulesReq := RetryFailedRulesReq env;
     completion := completion env;
     OpenCountryDB := cdb;
     OpenServerDB := sdb;
     GetCountryInfo := GetCountryInfo env;
     GetIDsForServerList := GetIDsForServerList env;
     NowFormat := NowFormat env;
     NowUnix := NowUnix env;
     CreateFile := CreateFile env;
     WriteFile := WriteFile env;
     MarshalInfo := MarshalInfo env;
     MarshalPlayer := MarshalPlayer env;
     MarshalCountry := MarshalCountry env |}.

(** The sample environment with a country database, resp. a server
    database, that cannot be opened. *)
Definition countryDownEnv : Env string :=
  withDatabases (Some (Foreign "open GeoLite2-City.mmdb: no such file")) None
    sampleEnv.
Definition serverDownEnv : Env string :=
  withDatabases None (Some (Foreign "unable to open database file")) sampleEnv.

Definition noIgnore : Filter := mkFilter false false false.
Definition ignoreInfoOnly : Filter := mkFilter true false false.
Definition ignoreAll : Filter := mkFilter true true true.

(** ** Vocabulary of the further properties *)

(** The slice that appending the elements of [l] one by one to a nil
    slice gives: nil when there is nothing to append. *)
Definition appended {A} (l : list A) : slice A :=
  match l with
  | [] => None
  | _ => Some l
  end.

(** The request kind an exchange or a retry round belongs to. *)
Definition eventKind (ev : event) : option requestType :=
  match ev with
  | EvQuery kind _ => Some kind
  | EvRetry kind _ _ => Some kind
  | _ => None
  end.

(** [EvCreateFile] and [EvWriteFile] touch the snapshot file. *)
Definition touchesFile (ev : event) : bool :=
  match ev with
  | EvCreateFile _ | EvWriteFile _ => true
  | _ => false
  end.

(** Whether the filter skips a kind. *)
Definition skips (flt : Filter) (kind : requestType) : bool :=
  match kind with
  | infoRequest => HasIgnoreInfo flt
  | playerRequest => HasIgnorePlayers flt
  | ruleRequest => HasIgnoreRules flt
  end.

(** The member of an object with the given name, if there is one. *)
Fixpoint lookupMember (name : string) (members : list (string * json))
    : option json :=
  match members with
  | [] => None
  | (k, v) :: rest => if String.eqb k name then Some v else lookupMember name rest
  end.

Definition member (name : string) (j : json) : option json :=
  match j with
  | JObject members => lookupMember name members
  | _ => None
  end.

(** [final] is [m] after [for k, v := range retried { m[k] = v }]. *)
Definition mergedFrom {V} (retried m final : gmap string V) : Prop :=
  ∀ h, final !! h = match retried !! h with
                    | Some v => Some v
                    | None => m !! h
                    end.

Section more_aux.
Context {Country : Type} (env : Env Country).

(** What the info exchange with [host] returned, and whether the worker
    sends the host to the retry set. *)
Definition infoAnswer (host : string) : option ServerInfo.t * bool :=
  let '(serverinfo, err) := GetInfoForServer env host (QueryTimeout env) in
  (serverinfo, match err with Some _ => true | None => false end).

(** The network events of one kind during [retrieve]: nothing when the
    kind is skipped, otherwise one exchange per host in completion order,
    then the retry round on [failed] with [n] rounds. *)
Definition phase (flt : Filter) (servers : list string) (kind : requestType)
    (failed : slice string) (n : Z) : list event :=
  if skips flt kind then []
  else (EvQuery kind <$> completion env kind servers) ++ [EvRetry kind failed n].

(** The end of [retrieve], from what the assembler returned. *)
Definition writeSnapshot (built : result (serverList.t Country))
    : M (option error) :=
  match built with
  | Err err => mret (Some (LogAppError err))
  | Ok serverlist =>
      let j := MarshalServerList env serverlist in
      _ ← emit (EvCreateFile "servers.json");
      match CreateFile env "servers.json" with
      | Some err =>
          mret (Some (LogAppErrorfWrap "Error creating json file: %s" err))
      | None =>
          _ ← emit (EvWriteFile j);
          match WriteFile env j with
          | Some err =>
              mret (Some (LogAppErrorfWrap "Error writing json file: %s" err))
          | None => mret None
          end
      end
  end.




(** The country lookup the loop makes for a successful [host]. *)
Definition countryEvent (host : string) : option event :=
  match SplitHostPort host with
  | Ok (ip, _) => Some (EvGetCountryInfo ip)
  | Err _ => None
  end.

(** The address derived from the game port of [host]'s info, if one is. *)
Definition derivedAddress (infomap : gmap string (option ServerInfo.t))
    (host : string) : option string :=
  match SplitHostPort host, default None (infomap !! host) with
  | Ok (ip, _), Some inf =>
      let gameport := ExtraData.Port (ServerInfo.ExtraData inf) in
      if bool_decide (gameport ≠ 0%Z) then Some (Sprintf_host ip gameport)
      else None
  | _, _ => None
  end.

(** The address under which a successful [host] is listed. *)
Definition listedAddress (infomap : gmap string (option ServerInfo.t))
    (host : string) : string :=
  match SplitHostPort host with
  | Ok _ => default host (derivedAddress infomap host)
  | Err _ => ""
  end.

(** The endpoint fields of the entry [s] appended for [host]. *)
Definition entryEndpoint (host : string) (s : server.t Country) : Prop :=
  match SplitHostPort host with
  | Ok (ip, port) =>
      server.IP s = ip ∧
      server.Port s = match Atoi port with Ok p => p | Err _ => 0%Z end ∧
      GetCountryInfo env ip = Some (server.CountryInfo s)
  | Err _ =>
      server.Host s = "" ∧ server.IP s = "" ∧ server.Port s = 0%Z ∧
      server.CountryInfo s = None
  end.

End more_aux.

(** * Properties *)

(** ** The library functions on sample arguments *)

Example SplitHostPort_ipv4 :
  SplitHostPort "10.0.0.1:27015" = Ok ("10.0.0.1", "27015").
Proof. reflexivity. Qed.

Example SplitHostPort_ipv6 : SplitHostPort "[::1]:27015" = Ok ("::1", "27015").
Proof. reflexivity. Qed.

Example SplitHostPort_no_port :
  SplitHostPort "localhost" = Err (Foreign "missing port in address").
Proof. reflexivity. Qed.

Example SplitHostPort_bare_ipv6 :
  SplitHostPort "::1:27015" = Err (Foreign "too many colons in address").
Proof. reflexivity. Qed.

Example Atoi_samples :
  Atoi "27015" = Ok 27015%Z ∧ Atoi "-12" = Ok (-12)%Z ∧
  Atoi "" = Err (Foreign "invalid syntax") ∧
  Atoi "12a" = Err (Foreign "invalid syntax").
Proof. repeat split; reflexivity. Qed.

Example Sprintf_host_samples :
  Sprintf_host "::1" 27015 = "::1:27015" ∧ Sprintf_host "a" (-3) = "a:-3".
Proof. split; vm_compute; reflexivity. Qed.

(** ** The computation monad *)

Lemma bind_returned {A B} (m : M A) (k : A → M B) log b :
  bind m k = (log, Returned b) →
  ∃ l1 a l2, m = (l1, Returned a) ∧ k a = (l2, Returned b) ∧ log = l1 ++ l2.
Proof.
  destruct m as [l1 [a| |]]; simpl; try discriminate.
  destruct (k a) as [l2 o] eqn:Hk. intros [= <- ->]. eauto 6.
Qed.

Lemma mbind_returned {A B} (m : M A) (k : A → M B) log b :
  m ≫= k = (log, Returned b) →
  ∃ l1 a l2, m = (l1, Returned a) ∧ k a = (l2, Returned b) ∧ log = l1 ++ l2.
Proof. apply bind_returned. Qed.

Lemma mret_returned {A} (a b : A) log :
  mret a = ((log, Returned b) : M A) → log = [] ∧ a = b.
Proof. intros [= <- <-]. done. Qed.

Lemma emit_bind {B} ev (k : unit → M B) :
  emit ev ≫= k = (ev :: (k tt).1, (k tt).2).
Proof. unfold mbind, M_bind, bind, emit. by destruct (k tt). Qed.

Lemma mret_bind {A B} (a : A) (k : A → M B) : mret a ≫= k = k a.
Proof. unfold mbind, M_bind, mret, M_ret, ret, bind. by destruct (k a). Qed.

Lemma defer_returned {A} ev (m : M A) log a :
  defer ev m = (log, Returned a) → ∃ l, m = (l, Returned a) ∧ log = l ++ [ev].
Proof. destruct m as [l [a'| |]]; simpl; intros [= <- <-] || discriminate. eauto. Qed.

Lemma recv_returned {A} (sent : option A) log a :
  recv sent = (log, Returned a) → sent = Some a ∧ log = [].
Proof. destruct sent; simpl; [intros [= <- <-]; done | discriminate]. Qed.

Lemma mbind_intro {A B} (m : M A) (k : A → M B) l1 a l2 b :
  m = (l1, Returned a) → k a = (l2, Returned b) →
  m ≫= k = (l1 ++ l2, Returned b).
Proof. intros -> Hk. unfold mbind, M_bind, bind. by rewrite Hk. Qed.

(** ** Batch fan-out *)

Section fanout.
Context {Country : Type} (env : Env Country).

Lemma collect_eq {V} kind (answer : string → V * bool) host st :
  collect kind answer host st =
  ([EvQuery kind host],
   Returned (if (answer host).2 then (st.1, append st.2 host)
             else (<[host := (answer host).1]> st.1, st.2))).
Proof. unfold collect. rewrite emit_bind. by destruct (answer host).2. Qed.

Lemma forRange_cons_returned {A S} (body : A → S → M S) x xs st l st1 :
  body x st = (l, Returned st1) →
  forRange body (x :: xs) st =
  (l ++ (forRange body xs st1).1, (forRange body xs st1).2).
Proof.
  intros Hb. cbn [forRange]. unfold mbind, M_bind, bind. rewrite Hb.
  by destruct (forRange body xs st1).
Qed.

Lemma collect_fanout {V} kind (answer : string → V * bool) order :
  ∀ m0 f0, ∃ log m failed,
    forRange (collect kind answer) order (m0, f0) = (log, Returned (m, failed)) ∧
    (∀ h, h ∈ elems failed ↔
          h ∈ elems f0 ∨ (h ∈ order ∧ (answer h).2 = true)) ∧
    (∀ h, m !! h = if decide (h ∈ order ∧ (answer h).2 = false)
                   then Some (answer h).1 else m0 !! h).
Proof.
  induction order as [|host order IH]; intros m0 f0.
  - exists [], m0, f0. split; [done|]. split.
    + intros h. rewrite elem_of_nil. tauto.
    + intros h. case_decide as Hd; [|done]. destruct Hd as [Hd _].
      by apply elem_of_nil in Hd.
  - rewrite (forRange_cons_returned _ _ _ _ _ _ (collect_eq kind answer host (m0, f0))).
    cbn [fst snd].
    destruct (answer host).2 eqn:Hans.
    + destruct (IH m0 (append f0 host)) as (log & m & failed & Hrun & Hf & Hm).
      rewrite Hrun. exists ([EvQuery kind host] ++ log), m, failed.
      split; [done|]. split.
      * intros h. rewrite Hf. unfold append; simpl.
        rewrite elem_of_app, list_elem_of_singleton, elem_of_cons.
        split; [intros [[?| ->]|[? ?]]|intros [?|[[->|?] ?]]]; auto.
      * intros h. rewrite Hm.
        destruct (decide (h ∈ order ∧ (answer h).2 = false)) as [[Ho Ha]|Hn];
          destruct (decide (h ∈ host :: order ∧ (answer h).2 = false))
            as [[Ho' Ha']|Hn']; try done.
        -- exfalso. apply Hn'. split; [by right|done].
        -- exfalso. apply elem_of_cons in Ho' as [->|Ho']; [congruence|].
           by apply Hn.
    + destruct (IH (<[host:=(answer host).1]> m0) f0)
        as (log & m & failed & Hrun & Hf & Hm).
      rewrite Hrun. exists ([EvQuery kind host] ++ log), m, failed.
      split; [done|]. split.
      * intros h. rewrite Hf, elem_of_cons.
        split; [intros [?|[? ?]]|intros [?|[[->|?] Ha]]]; auto.
        congruence.
      * intros h. rewrite Hm.
        destruct (decide (h ∈ order ∧ (answer h).2 = false)) as [[Ho Ha]|Hn];
          destruct (decide (h ∈ host :: order ∧ (answer h).2 = false))
            as [[Ho' Ha']|Hn']; try done.
        -- exfalso. apply Hn'. split; [by right|done].
        -- apply elem_of_cons in Ho' as [->|Ho']; [|exfalso; by apply Hn].
           by rewrite lookup_insert_eq.
        -- rewrite lookup_insert_ne; [done|]. intros ->.
           apply Hn'. split; [by left|done].
Qed.

Lemma playersWorker_collect host st :
  playersWorker env host st = collect playerRequest (playersAnswer env) host st.
Proof.
  unfold playersWorker, collect, playersAnswer. destruct st as [m failed].
  destruct (GetPlayersForServer env host (QueryTimeout env)) as [players [e|]];
    simpl; [|done]. by destruct (isErrNoPlayers e).
Qed.

Lemma rulesWorker_collect host st :
  rulesWorker env host st = collect ruleRequest (rulesAnswer env) host st.
Proof.
  unfold rulesWorker, collect, rulesAnswer. destruct st as [m failed].
  destruct (GetRulesForServer env host (QueryTimeout env)) as [rules [e|]];
    simpl; [|done]. by destruct (isErrNoRules e).
Qed.

Lemma forRange_ext {A S} (f g : A → S → M S) xs st :
  (∀ x s, f x s = g x s) → forRange f xs st = forRange g xs st.
Proof.
  intros Hfg. revert st. induction xs as [|x xs IH]; intros st; [done|].
  simpl. rewrite Hfg. unfold mbind, M_bind, bind.
  destruct (g x st) as [l [s| |]]; [|done..]. by rewrite IH.
Qed.





End fanout.

(** ** The server-list assembler *)

Section assembler.
Context {Country : Type} (env : Env Country).
Variables (flt : Filter)
  (infomap : gmap string (option ServerInfo.t))
  (rulemap : gmap string (option (gmap string string)))
  (playermap : gmap string (slice PlayerInfo.t)).

Lemma commaOk_eq {V} (m : gmap string (option V)) host :
  commaOk None m host = (default None (m !! host), present m host).
Proof. unfold commaOk, present. by destruct (m !! host). Qed.

Lemma entryFor_mono (rec1 rec2 : list string) host (s : server.t Country) :
  rec1 ⊆ rec2 →
  entryFor flt infomap rulemap playermap rec1 host s →
  entryFor flt infomap rulemap playermap rec2 host s.
Proof.
  intros Hsub (Hp & Hr & Hi & Hh). repeat split; try done.
  destruct (SplitHostPort host) as [[ip port]|]; [|done].
  destruct Hh as (Hip & inf & Hinf & Hhost). split; [done|].
  exists inf. split; [done|]. simpl in *.
  case_bool_decide; [|done]. destruct Hhost. split; [done|]. by apply Hsub.
Qed.

Lemma entryFor_assignID m rec host (s : server.t Country) :
  entryFor flt infomap rulemap playermap rec host s →
  entryFor flt infomap rulemap playermap rec host (assignID m s).
Proof.
  unfold assignID. case_bool_decide; [|done]. by destruct s.
Qed.

Lemma successBranch_returned host info players rules use i dbh log srv dbh' :
  successBranch env host info players rules use i dbh = (log, Returned (srv, dbh')) →
  server.Players srv = players ∧
  server.Rules srv = rules ∧
  server.Info srv = (if use : bool then i else InfoPointer info) ∧
  elems dbh ⊆ elems dbh' ∧
  match SplitHostPort host with
  | Err _ => server.Host srv = "" ∧ server.IP srv = ""
  | Ok (ip, port) =>
      server.IP srv = ip ∧
      ∃ inf, info = Some inf ∧
        let gameport := ExtraData.Port (ServerInfo.ExtraData inf) in
        if bool_decide (gameport ≠ 0%Z)
        then server.Host srv = Sprintf_host ip gameport ∧
             Sprintf_host ip gameport ∈ elems dbh'
        else server.Host srv = host
  end.
Proof.
  unfold successBranch.
  destruct (SplitHostPort host) as [[ip port]|e].
  - destruct info as [inf|]; [|discriminate].
    destruct (bool_decide (ExtraData.Port (ServerInfo.ExtraData inf) ≠ 0%Z)) eqn:Hgp.
    + rewrite emit_bind. intros [= <- Hk].
      destruct (GetCountryInfo env ip) as [loc|]; [|discriminate].
      simpl in Hk. injection Hk as <- <-. simpl.
      repeat split; try done.
      * intros x Hx. apply elem_of_app. by left.
      * exists inf. split; [done|]. simpl. rewrite Hgp. split; [done|].
        apply elem_of_app. right. by apply list_elem_of_singleton.
    + rewrite emit_bind. intros [= <- Hk].
      destruct (GetCountryInfo env ip) as [loc|]; [|discriminate].
      simpl in Hk. injection Hk as <- <-. simpl.
      repeat split; try done.
      exists inf. split; [done|]. simpl. by rewrite Hgp.
  - intros [= <- <- <-]. simpl. repeat split; done.
Qed.

Lemma hostBody_returned host st log st' :
  (useEmptyInfo st = true → HasIgnoreInfo flt = true) →
  hostBody env flt infomap rulemap playermap host st = (log, Returned st') →
  (useEmptyInfo st' = true → HasIgnoreInfo flt = true) ∧
  elems (dbhosts st) ⊆ elems (dbhosts st') ∧
  if succeeds flt infomap rulemap playermap host then
    ∃ srv, Servers st' = append (Servers st) srv ∧
           FailedServers st' = FailedServers st ∧
           entryFor flt infomap rulemap playermap (elems (dbhosts st')) host srv
  else
    Servers st' = Servers st ∧
    FailedServers st' = append (FailedServers st) host.
Proof.
  intros Huse. unfold hostBody, succeeds.
  rewrite !commaOk_eq.
  set (success := hostSuccess _ _ _ _).
  set (players := match default None (playermap !! host) with
                  | Some _ => default None (playermap !! host)
                  | None => make_slice
                  end).
  assert (Hplayers : players = Some (elems (default None (playermap !! host))))
    by (subst players; by destruct (default None (playermap !! host))).
  set (use' := if HasIgnoreInfo flt then true else useEmptyInfo st).
  set (i' := if HasIgnoreInfo flt then InfoEmptyMap else InfoNil).
  assert (Hlet : (if HasIgnoreInfo flt then (true, InfoEmptyMap)
                  else (useEmptyInfo st, InfoNil)) = (use', i'))
    by (subst use' i'; by destruct (HasIgnoreInfo flt)).
  rewrite Hlet.
  assert (Huse' : use' = true → HasIgnoreInfo flt = true)
    by (subst use'; destruct (HasIgnoreInfo flt); auto).
  destruct success.
  - intros (l1 & [srv dbh'] & l2 & Hsb & Hret & ->)%mbind_returned.
    apply mret_returned in Hret as [-> <-]. simpl.
    apply successBranch_returned in Hsb as (Hp & Hr & Hi & Hsub & Hh).
    split; [done|]. split; [done|].
    exists srv. repeat split; try done.
    + by rewrite Hp.
    + rewrite Hi. subst use' i'.
      destruct (HasIgnoreInfo flt) eqn:HI; [done|].
      destruct (useEmptyInfo st); [|done]. by specialize (Huse eq_refl).
    + destruct (SplitHostPort host) as [[ip port]|]; [|done].
      destruct Hh as (Hip & inf & Hinf & Hhost). split; [done|].
      exists inf. split; [|done].
      destruct (infomap !! host) as [[?|]|]; simpl in Hinf; congruence.
  - intros [-> <-]%mret_returned. simpl. done.
Qed.

Lemma hostLoop_returned servers : ∀ st log st',
  (useEmptyInfo st = true → HasIgnoreInfo flt = true) →
  forRange (hostBody env flt infomap rulemap playermap) servers st
    = (log, Returned st') →
  ∃ new,
    elems (Servers st') = elems (Servers st) ++ new ∧
    (is_Some (Servers st) → is_Some (Servers st')) ∧
    elems (FailedServers st') =
      elems (FailedServers st) ++
      filter (λ h, succeeds flt infomap rulemap playermap h = false) servers ∧
    Forall2 (entryFor flt infomap rulemap playermap (elems (dbhosts st')))
      (filter (λ h, succeeds flt infomap rulemap playermap h = true) servers)
      new ∧
    elems (dbhosts st) ⊆ elems (dbhosts st').
Proof.
  induction servers as [|host servers IH]; intros st log st' Huse.
  - intros [_ <-]%mret_returned. exists []. rewrite !app_nil_r.
    repeat split; done.
  - cbn [forRange].
    intros (l1 & st1 & l2 & Hbody & Hrest & ->)%mbind_returned.
    apply hostBody_returned in Hbody as (Huse1 & Hsub1 & Hstep); [|done].
    apply IH in Hrest as (new & HS & Hsome & HF & Hall & Hsub); [|done].
    destruct (succeeds flt infomap rulemap playermap host) eqn:Hsucc.
    + destruct Hstep as (srv & HS1 & HF1 & Hentry).
      exists (srv :: new).
      rewrite !filter_cons, Hsucc. simpl.
      rewrite HS, HS1, HF, HF1. simpl. rewrite <- app_assoc. simpl.
      repeat split; try done.
      * intros _. apply Hsome. rewrite HS1. by eexists.
      * constructor; [|done]. by eapply entryFor_mono.
      * by etrans.
    + destruct Hstep as (HS1 & HF1).
      exists new.
      rewrite !filter_cons, Hsucc. simpl.
      rewrite HS, HS1, HF, HF1. simpl. rewrite <- app_assoc. simpl.
      repeat split; try done.
      * intros Hs. apply Hsome. by rewrite HS1.
      * by etrans.
Qed.

(** *** When the assembler returns *)

Lemma successBranch_progress host info players rules use i dbh :
  (∀ ip port, SplitHostPort host = Ok (ip, port) →
     is_Some info ∧ is_Some (GetCountryInfo env ip)) →
  ∃ log srv dbh',
    successBranch env host info players rules use i dbh
      = (log, Returned (srv, dbh')).
Proof.
  intros Hready. unfold successBranch.
  destruct (SplitHostPort host) as [[ip port]|e]; [|by eexists _, _, _].
  destruct (Hready ip port eq_refl) as [[inf ->] [loc Hloc]].
  destruct (bool_decide _); rewrite emit_bind, Hloc; by eexists _, _, _.
Qed.

Lemma hostBody_progress host st :
  hostReady flt infomap rulemap playermap env host →
  ∃ log st', hostBody env flt infomap rulemap playermap host st
               = (log, Returned st').
Proof.
  intros Hready. unfold hostBody. rewrite !commaOk_eq.
  unfold hostReady, succeeds in Hready.
  set (success := hostSuccess _ _ _ _) in *.
  destruct (HasIgnoreInfo flt); destruct success;
    try (by eexists _, _);
    (edestruct successBranch_progress as (log & srv & dbh' & Hsb);
       [exact (Hready eq_refl)|]);
    eexists _, _; (eapply mbind_intro; [exact Hsb|]); reflexivity.
Qed.

Lemma hostLoop_progress servers : ∀ st,
  Forall (hostReady flt infomap rulemap playermap env) servers →
  ∃ log st', forRange (hostBody env flt infomap rulemap playermap) servers st
               = (log, Returned st').
Proof.
  induction servers as [|host servers IH]; intros st Hall.
  - by eexists _, _.
  - apply Forall_cons in Hall as [Hhost Hall].
    destruct (hostBody_progress host st Hhost) as (l1 & st1 & Hbody).
    destruct (IH st1 Hall) as (l2 & st' & Hrest).
    exists (l1 ++ l2), st'. cbn [forRange]. by eapply mbind_intro.
Qed.

(** [buildServerList] returns a list whenever the filter passes the guard,
    both databases open, no host stops the loop, and the id lookup
    replies. *)
Lemma buildServerList_returns servers :
  ignoresAll flt = false →
  OpenCountryDB env = None →
  OpenServerDB env = None →
  Forall (hostReady flt infomap rulemap playermap env) servers →
  (∀ hosts, is_Some (GetIDsForServerList env hosts)) →
  ∃ log sl, buildServerList env flt servers infomap rulemap playermap
              = (log, Returned (Ok sl)).
Proof.
  intros Hguard Hcdb Hsdb Hall Hids. unfold buildServerList.
  rewrite Hguard, Hcdb, Hsdb.
  destruct (hostLoop_progress servers
              (mkLoop make_slice None None false 0%Z) Hall)
    as (l1 & st & Hloop).
  set (sl0 := serverList.mk (NowFormat env) (NowUnix env) (len (Servers st))
                (Servers st) (len (FailedServers st)) (FailedServers st)).
  destruct (Hids (hostsOf (serverList.Servers sl0))) as [m Hm].
  eexists _, _. eapply mbind_intro; [reflexivity|].
  unfold defer.
  erewrite (mbind_intro (emit EvOpenServerDB)); [reflexivity|reflexivity|].
  eapply mbind_intro; [exact Hloop|].
  eapply mbind_intro; [reflexivity|].
  eapply mbind_intro; [|reflexivity].
  unfold setServerIDForList. fold sl0.
  eapply mbind_intro; [reflexivity|]. rewrite Hm.
  eapply mbind_intro; reflexivity.
Qed.

(** *** When the assembler panics *)

(** A successful first host whose address splits and whose info is nil
    (absent from the map, or stored as a nil pointer) makes the call
    panic, whatever the filter that passes the guard. *)
Lemma nil_info_panics host servers ip port :
  ignoresAll flt = false →
  OpenCountryDB env = None →
  OpenServerDB env = None →
  succeeds flt infomap rulemap playermap host = true →
  SplitHostPort host = Ok (ip, port) →
  default None (infomap !! host) = None →
  buildServerList env flt (host :: servers) infomap rulemap playermap
    = ([EvOpenCountryDB; EvOpenServerDB; EvCloseCountryDB], Panicked).
Proof.
  intros Hguard Hcdb Hsdb Hsucc Hsplit Hnil.
  assert (Hbody : ∀ st, hostBody env flt infomap rulemap playermap host st
                        = ([], Panicked)).
  { intros st. unfold hostBody. rewrite !commaOk_eq.
    unfold succeeds in Hsucc.
    set (success := hostSuccess _ _ _ _) in *. rewrite Hnil.
    destruct (HasIgnoreInfo flt); rewrite Hsucc;
      unfold successBranch; by rewrite Hsplit. }
  unfold buildServerList. rewrite Hguard, Hcdb, Hsdb.
  cbn [forRange]. rewrite Hbody. reflexivity.
Qed.

(** What a list returned by [buildServerList] looks like. *)
Lemma buildServerList_returned servers log sl :
  buildServerList env flt servers infomap rulemap playermap
    = (log, Returned (Ok sl)) →
  ignoresAll flt = false ∧
  ∃ recorded,
    EvAddServersToDB recorded ∈ log ∧
    is_Some (serverList.Servers sl) ∧
    Forall2 (entryFor flt infomap rulemap playermap (elems recorded))
      (filter (λ h, succeeds flt infomap rulemap playermap h = true) servers)
      (elems (serverList.Servers sl)) ∧
    elems (serverList.FailedServers sl) =
      filter (λ h, succeeds flt infomap rulemap playermap h = false) servers ∧
    serverList.ServerCount sl = len (serverList.Servers sl) ∧
    serverList.FailedCount sl = len (serverList.FailedServers sl).
Proof.
  unfold buildServerList.
  destruct (ignoresAll flt); [intros [= _ ?]; done|].
  intros (l1 & [] & l2 & _ & H & ->)%mbind_returned.
  destruct (OpenCountryDB env); [by apply mret_returned in H as [_ ?]|].
  apply defer_returned in H as (l & H & ->).
  apply mbind_returned in H as (l3 & [] & l4 & _ & H & ->).
  destruct (OpenServerDB env); [by apply mret_returned in H as [_ ?]|].
  apply mbind_returned in H as (l5 & st & l6 & Hloop & H & ->).
  apply mbind_returned in H as (l7 & [] & l8 & Hev & H & ->).
  injection Hev as <-.
  apply mbind_returned in H as (l9 & sl' & l10 & Hset & H & ->).
  apply mret_returned in H as [-> [= <-]].
  unfold setServerIDForList in Hset.
  apply mbind_returned in Hset as (l11 & [] & l12 & _ & Hset & ->).
  apply mbind_returned in Hset as (l13 & m & l14 & _ & Hset & ->).
  apply mret_returned in Hset as [-> <-]. cbn [serverList.Servers
    serverList.FailedServers serverList.ServerCount serverList.FailedCount].
  apply hostLoop_returned in Hloop as (new & HS & Hsome & HF & Hall & _);
    [|done].
  cbn [Servers FailedServers dbhosts] in *.
  destruct (Servers st) as [srvs|] eqn:Hsrvs;
    [|by destruct Hsome as [? ?]; [eexists|]].
  simpl in HS. subst srvs.
  split; [done|]. exists (dbhosts st). repeat split.
  - rewrite !elem_of_app, !elem_of_cons. auto 10.
  - by eexists.
  - simpl. apply Forall2_fmap_r.
    eapply Forall2_impl; [exact Hall|]. intros h s' Hent.
    by apply entryFor_assignID.
  - by rewrite HF.
  - unfold len. simpl. by rewrite length_fmap.
Qed.

Lemma present_true {V} (m : gmap string V) host :
  present m host = true ↔ is_Some (m !! host).
Proof. unfold present. apply bool_decide_eq_true. Qed.

Lemma commaOk_present {V} (zero : V) (m : gmap string V) host :
  (commaOk zero m host).2 = present m host.
Proof. unfold commaOk, present. by destruct (m !! host). Qed.

(** The truth table of [success], for the filters that pass the guard. *)
Lemma hostSuccess_table (iok pok rok : bool) :
  ignoresAll flt = false →
  hostSuccess flt iok pok rok =
  (HasIgnoreInfo flt || iok) && (HasIgnorePlayers flt || pok) &&
  (HasIgnoreRules flt || rok).
Proof.
  unfold ignoresAll, hostSuccess.
  destruct flt as [[] [] []], iok, pok, rok; simpl; done.
Qed.

(** C4. For every host and every filter that skips at most two kinds, the
    value the assembler gives to [success] for that host is true if and
    only if every kind that is not skipped is present for the host in its
    map, a skipped kind counting as satisfied. The filter ranges over the
    seven combinations that [ignoresAll] lets through. *)
Theorem success_iff_nonskipped_present (host : string) :
  ignoresAll flt = false →
  hostSuccess flt (commaOk None infomap host).2 (commaOk None playermap host).2
    (commaOk None rulemap host).2 = true
  ↔ (HasIgnoreInfo flt = true ∨ is_Some (infomap !! host)) ∧
    (HasIgnorePlayers flt = true ∨ is_Some (playermap !! host)) ∧
    (HasIgnoreRules flt = true ∨ is_Some (rulemap !! host)).
Proof.
  intros Hall. rewrite (hostSuccess_table _ _ _ Hall), !commaOk_present.
  rewrite !andb_true_iff, !orb_true_iff, !present_true. tauto.
Qed.

(** C5. For every list returned by [buildServerList]: the failed list is,
    in input order, exactly the input hosts for which [success] is false;
    the server list has, in input order, exactly one entry for each input
    host for which [success] is true, built from that host's players, rules
    and info; so every input host is accounted for in one list and only
    one, and the two lengths add up to the number of input hosts. *)
Theorem hosts_partitioned servers log sl :
  buildServerList env flt servers infomap rulemap playermap
    = (log, Returned (Ok sl)) →
  elems (serverList.FailedServers sl) =
    filter (λ h, succeeds flt infomap rulemap playermap h = false) servers ∧
  (∃ recorded,
     Forall2 (entryFor flt infomap rulemap playermap recorded)
       (filter (λ h, succeeds flt infomap rulemap playermap h = true) servers)
       (elems (serverList.Servers sl))) ∧
  (∀ host, host ∈ servers →
     (host ∈ elems (serverList.FailedServers sl)
      ↔ succeeds flt infomap rulemap playermap host = false)) ∧
  (length (elems (serverList.Servers sl)) +
   length (elems (serverList.FailedServers sl)) = length servers)%nat.
Proof.
  intros (_ & recorded & _ & _ & Hall & HF & _)%buildServerList_returned.
  split; [done|]. split; [by exists (elems recorded)|]. split.
  - intros host Hin. rewrite HF, list_elem_of_filter. tauto.
  - rewrite <- (Forall2_length _ _ _ Hall), HF.
    clear. induction servers as [|h l IH]; [done|].
    rewrite !filter_cons.
    destruct (succeeds flt infomap rulemap playermap h); simpl; lia.
Qed.

(** C6, as amended. For every list returned by [buildServerList] and every
    successful host whose host string splits into an ip and a port: the
    host has a decoded info; if the game port of that info is not zero,
    whether or not it equals the query port, the address of the server is
    the string built from the ip and the game port, and that string is in
    the list handed to [AddServersToDB]; if the game port is zero, the
    address of the server is the original host string. *)
Theorem game_port_address servers log sl :
  buildServerList env flt servers infomap rulemap playermap
    = (log, Returned (Ok sl)) →
  ∃ recorded,
    EvAddServersToDB recorded ∈ log ∧
    Forall2
      (λ host s, ∀ ip port,
         SplitHostPort host = Ok (ip, port) →
         ∃ inf, infomap !! host = Some (Some inf) ∧
           let gameport := ExtraData.Port (ServerInfo.ExtraData inf) in
           (gameport ≠ 0%Z →
              server.Host s = Sprintf_host ip gameport ∧
              Sprintf_host ip gameport ∈ elems recorded) ∧
           (gameport = 0%Z → server.Host s = host))
      (filter (λ h, succeeds flt infomap rulemap playermap h = true) servers)
      (elems (serverList.Servers sl)).
Proof.
  intros (_ & recorded & Hev & _ & Hall & _)%buildServerList_returned.
  exists recorded. split; [done|].
  eapply Forall2_impl; [exact Hall|].
  intros host s (_ & _ & _ & Hh) ip port Hsplit. rewrite Hsplit in Hh.
  destruct Hh as (_ & inf & Hinf & Hhost). exists inf. split; [done|].
  simpl in *. case_bool_decide as Hgp; split; done.
Qed.

(** C9. For every list returned by [buildServerList], the [Players] field
    of every server entry is an allocated slice, never nil; and the entry
    of a successful host whose players map has no entry, or a nil entry,
    holds the empty player list. *)
Theorem players_never_nil servers log sl :
  buildServerList env flt servers infomap rulemap playermap
    = (log, Returned (Ok sl)) →
  Forall (λ s, server.Players s ≠ None) (elems (serverList.Servers sl)) ∧
  Forall2
    (λ host s,
       playermap !! host = None ∨ playermap !! host = Some None →
       server.Players s = Some [])
    (filter (λ h, succeeds flt infomap rulemap playermap h = true) servers)
    (elems (serverList.Servers sl)).
Proof.
  intros (_ & recorded & _ & _ & Hall & _)%buildServerList_returned. split.
  - eapply Forall2_Forall_r; [exact Hall|]. apply Forall_forall.
    intros host _ s (Hp & _). by rewrite Hp.
  - eapply Forall2_impl; [exact Hall|].
    intros host s (Hp & _) Hnil. rewrite Hp. unfold slice in *.
    by destruct Hnil as [-> | ->].
Qed.

(** With [HasIgnoreInfo] set, every entry of a returned list carries the
    empty placeholder, which is serialised as the empty object. *)
Lemma ignoreInfo_placeholder servers log sl :
  HasIgnoreInfo flt = true →
  buildServerList env flt servers infomap rulemap playermap
    = (log, Returned (Ok sl)) →
  Forall (λ s, server.Info s = InfoEmptyMap ∧
               MarshalInfoValue env (server.Info s) = JObject [])
    (elems (serverList.Servers sl)).
Proof.
  intros HI (_ & recorded & _ & _ & Hall & _)%buildServerList_returned.
  eapply Forall2_Forall_r; [exact Hall|]. apply Forall_forall.
  intros host _ s (_ & _ & Hi & _). rewrite HI in Hi. by rewrite Hi.
Qed.

End assembler.

(** ** Counts *)

(** C10. Every list returned by [buildServerList] has [ServerCount] equal
    to the length of [Servers] and [FailedCount] equal to the length of
    [FailedServers]; so has the default empty list. *)
Theorem counts_match_lengths {Country : Type} (env : Env Country) (flt : Filter)
    (servers : list string) infomap rulemap playermap log sl :
  buildServerList env flt servers infomap rulemap playermap
    = (log, Returned (Ok sl)) →
  (serverList.ServerCount sl = len (serverList.Servers sl) ∧
   serverList.FailedCount sl = len (serverList.FailedServers sl)) ∧
  (∀ (APIServer : Type) nowFormat nowUnix,
     let d := @models.GetDefaultServerList APIServer nowFormat nowUnix in
     models.ServerCount d = len (models.Servers d) ∧
     models.FailedCount d = len (models.FailedServers d)).
Proof.
  intros (_ & recorded & _ & _ & _ & _ & Hs & Hf)%buildServerList_returned.
  split; [done|]. intros APIServer nowFormat nowUnix. simpl. done.
Qed.

(** ** The guard against skipping all three kinds *)

(** C3, as amended. With all three ignore flags set, [retrieve] performs
    the master query and nothing else: no info, players or rules exchange
    is started and no retry round is run, so no game host is contacted.
    If the master query succeeds, [retrieve] returns the configuration
    error; if it fails, the master-server error is returned instead.
    [buildServerList] rejects such a filter with a configuration error
    before it opens a database or looks at a host. *)
Theorem ignore_all_rejected {Country : Type} (env : Env Country) (flt : Filter) :
  ignoresAll flt = true →
  events (retrieve env flt) = [EvMasterQuery] ∧
  Forall (λ ev, contactsHost ev = false) (events (retrieve env flt)) ∧
  (∀ servers, NewMasterQuery env flt = Ok servers →
     ending (retrieve env flt) =
     Returned (Some (LogAppErrorf "Cannot ignore all three AS2 requests!"))) ∧
  (∀ err, NewMasterQuery env flt = Err err →
     ending (retrieve env flt) =
     Returned (Some (LogAppErrorfWrap "Master server error: %s" err))) ∧
  (∀ servers infomap rulemap playermap,
     buildServerList env flt servers infomap rulemap playermap =
     ([], Returned (Err (LogAppErrorf "Cannot ignore all three A2S_ requests!")))).
Proof.
  intros Hall.
  assert (Hev : events (retrieve env flt) = [EvMasterQuery]).
  { unfold retrieve. rewrite emit_bind. unfold events. simpl.
    destruct (NewMasterQuery env flt); [|done]. by rewrite Hall. }
  split; [done|]. split; [rewrite Hev; by repeat constructor|].
  split; [|split].
  - intros servers Hmq. unfold retrieve. rewrite emit_bind, Hmq, Hall. done.
  - intros err Hmq. unfold retrieve. rewrite emit_bind, Hmq. done.
  - intros. unfold buildServerList. by rewrite Hall.
Qed.

(** C3, as stated, fails: with all three flags set and a master server
    that does not answer, [retrieve] has done network I/O (the master
    query) and the error it returns is the master-server error, not a
    configuration error. *)
Lemma ignore_all_after_master_query :
  ignoresAll ignoreAll = true ∧
  events (retrieve masterDownEnv ignoreAll) = [EvMasterQuery] ∧
  ¬ Forall (λ ev, isNetwork ev = false) (events (retrieve masterDownEnv ignoreAll)) ∧
  ending (retrieve masterDownEnv ignoreAll) =
    Returned (Some (LogAppErrorfWrap "Master server error: %s"
                      (Foreign "i/o timeout"))) ∧
  ¬ ∃ msg, ending (retrieve masterDownEnv ignoreAll) =
           Returned (Some (LogAppErrorf msg)).
Proof.
  split; [done|]. split; [done|]. split; [|split; [done|]].
  - intros H. apply Forall_cons in H as [H _]. discriminate H.
  - intros [msg H]. discriminate H.
Qed.

(** ** Omitted info *)

(** C2 fails on the code. With [HasIgnoreInfo] set, a host whose players
    and rules are present and whose address splits into ip and port makes
    [buildServerList] dereference the nil info: the call panics and no
    list is produced. So does [retrieve], which passes a nil info map. *)
Theorem ignoreInfo_panics :
  HasIgnoreInfo ignoreInfoOnly = true ∧
  succeeds ignoreInfoOnly ∅ sampleRuleMap samplePlayerMap hostA = true ∧
  ending (buildServerList sampleEnv ignoreInfoOnly [hostA] ∅
            sampleRuleMap samplePlayerMap) = Panicked ∧
  ending (retrieve sampleEnv ignoreInfoOnly) = Panicked.
Proof. repeat split; vm_compute; reflexivity. Qed.

(** ** Game port *)

(** C6, as stated, fails: [host6] is successful and its info's game port,
    27015, is the port of the query endpoint, so the address should be the
    original host string; the assembler derives a string from the ip and
    the game port all the same, and that string, not the host string, is
    the address of the server. *)
Lemma game_port_equal_still_derived :
  let infomap := <[host6 := Some (sampleInfo 27015)]> ∅ in
  let rulemap := <[host6 := None]> ∅ in
  let playermap := <[host6 := None]> ∅ in
  SplitHostPort host6 = Ok ("::1", "27015") ∧
  Atoi "27015" = Ok (ExtraData.Port (ServerInfo.ExtraData (sampleInfo 27015))) ∧
  succeeds noIgnore infomap rulemap playermap host6 = true ∧
  ∃ log sl s,
    buildServerList sampleEnv noIgnore [host6] infomap rulemap playermap
      = (log, Returned (Ok sl)) ∧
    serverList.Servers sl = Some [s] ∧
    server.Host s = "::1:27015" ∧
    server.Host s ≠ host6.
Proof.
  repeat split; try (vm_compute; reflexivity).
  eexists _, _, _. split; [vm_compute; reflexivity|].
  split; [reflexivity|]. split; [reflexivity|]. discriminate.
Qed.

(** ** The info fixture *)

(** C7, as amended. The fixture packet of [TestParseServerInfo] has 156
    bytes, starts with the marker FF FF FF FF and the type byte 0x49, and
    decodes without error to an info whose name is
    "ql.syncore.org - US CENTRAL #1", whose environment is "Linux", whose
    folder is "baseq3" and whose player count is 2. *)
Theorem fixture_decodes :
  length fixture = 156%nat ∧
  take 5 fixture = [0xFF; 0xFF; 0xFF; 0xFF; 0x49]%Z ∧
  ∃ info,
    parseServerInfo fixture = Ok info ∧
    ServerInfo.Name info = "ql.syncore.org - US CENTRAL #1" ∧
    ServerInfo.Environment info = "Linux" ∧
    ServerInfo.Folder info = "baseq3" ∧
    ServerInfo.Players info = 2%Z.
Proof.
  split; [reflexivity|]. split; [reflexivity|].
  eexists. split; [vm_compute; reflexivity|]. repeat split.
Qed.

(** C7, as stated, fails on the size: the literal packet of the test has
    156 bytes, not 144. *)
Lemma fixture_is_not_144_bytes : length fixture ≠ 144%nat.
Proof. vm_compute. discriminate. Qed.

(** ** Field order of the serialised list *)

(** C8, as amended. Every serialised list has its members in the order
    of the struct declaration: retrieval date, timestamp, server count,
    server list, failed count, failed-host list. The same holds for
    [models.APIServerList]. *)
Theorem serialised_field_order {Country : Type} (env : Env Country)
    (sl : serverList.t Country) :
  memberNames (MarshalServerList env sl) =
    ["retrievalDate"; "timestamp"; "serverCount"; "servers";
     "failedCount"; "failedServers"] ∧
  (∀ (APIServer : Type) (enc : APIServer → json) (asl : models.APIServerList APIServer),
     memberNames (models.MarshalAPIServerList enc asl) =
       ["retrievalDate"; "timestamp"; "serverCount"; "servers";
        "failedCount"; "failedServers"]).
Proof. split; [reflexivity|]. intros. reflexivity. Qed.

(** C8, as stated, fails: the two counts do not both come before the
    server list. In the serialised default list the server list is the
    fourth member and the failed count the fifth. *)
Lemma failed_count_after_servers :
  let names :=
    memberNames
      (models.MarshalAPIServerList (λ _ : unit, JNull)
         (models.GetDefaultServerList "Sat Oct 31 00:00:00 2026 EST" 1793404800)) in
  names !! 3%nat = Some "servers" ∧
  names !! 4%nat = Some "failedCount" ∧
  ¬ ∃ i j, names !! i = Some "failedCount" ∧ names !! j = Some "servers" ∧
           (i < j)%nat.
Proof.
  simpl. split; [done|]. split; [done|].
  intros (i & j & Hi & Hj & Hlt).
  assert (i = 4%nat) as ->.
  { do 4 (destruct i as [|i]; [discriminate Hi|]).
    destruct i as [|i]; [done|]. destruct i as [|i]; discriminate Hi. }
  assert (j = 3%nat) as ->.
  { do 3 (destruct j as [|j]; [discriminate Hj|]).
    destruct j as [|j]; [done|].
    do 2 (destruct j as [|j]; [discriminate Hj|]). discriminate Hj. }
  lia.
Qed.

(** ** The properties on the sample runs *)



(** The guard on the sample environment. *)
Lemma ignore_all_rejected_sample :
  ignoresAll ignoreAll = true ∧
  events (retrieve sampleEnv ignoreAll) = [EvMasterQuery] ∧
  ending (retrieve sampleEnv ignoreAll) =
    Returned (Some (LogAppErrorf "Cannot ignore all three AS2 requests!")).
Proof.
  split; [reflexivity|].
  destruct (ignore_all_rejected sampleEnv ignoreAll eq_refl)
    as (Hev & _ & Hok & _ & _).
  split; [exact Hev|]. exact (Hok sampleHosts eq_refl).
Defined.

(** The truth table at [hostB] when only info is skipped. *)
Lemma success_iff_nonskipped_present_sample :
  ignoresAll ignoreInfoOnly = false ∧
  (hostSuccess ignoreInfoOnly (commaOk None sampleInfoMap hostB).2
     (commaOk None samplePlayerMap hostB).2 (commaOk None sampleRuleMap hostB).2
   = true
   ↔ (HasIgnoreInfo ignoreInfoOnly = true ∨ is_Some (sampleInfoMap !! hostB)) ∧
     (HasIgnorePlayers ignoreInfoOnly = true ∨ is_Some (samplePlayerMap !! hostB)) ∧
     (HasIgnoreRules ignoreInfoOnly = true ∨ is_Some (sampleRuleMap !! hostB))).
Proof.
  split; [reflexivity|].
  apply (@success_iff_nonskipped_present ignoreInfoOnly sampleInfoMap
           sampleRuleMap samplePlayerMap hostB).
  reflexivity.
Defined.

(** The assembled sample list: two servers and one failed host. *)
Lemma hosts_partitioned_sample :
  ∃ log sl,
    buildServerList sampleEnv noIgnore sampleHosts sampleInfoMap sampleRuleMap
      samplePlayerMap = (log, Returned (Ok sl)) ∧
    elems (serverList.FailedServers sl) =
      filter (λ h, succeeds noIgnore sampleInfoMap sampleRuleMap samplePlayerMap h
                   = false) sampleHosts ∧
    (length (elems (serverList.Servers sl)) +
     length (elems (serverList.FailedServers sl)) = length sampleHosts)%nat.
Proof.
  eexists _, _.
  eassert (Hrun : buildServerList sampleEnv noIgnore sampleHosts sampleInfoMap
                    sampleRuleMap samplePlayerMap = (_, Returned (Ok _)))
    by (vm_compute; reflexivity).
  split; [exact Hrun|].
  destruct (hosts_partitioned sampleEnv noIgnore sampleInfoMap sampleRuleMap
              samplePlayerMap sampleHosts _ _ Hrun) as (HF & _ & _ & Hlen).
  split; [exact HF | exact Hlen].
Defined.

(** The addresses of the assembled sample list. *)
Lemma game_port_address_sample :
  ∃ log sl,
    buildServerList sampleEnv noIgnore sampleHosts sampleInfoMap sampleRuleMap
      samplePlayerMap = (log, Returned (Ok sl)) ∧
    ∃ recorded,
      EvAddServersToDB recorded ∈ log ∧
      Forall2
        (λ host s, ∀ ip port,
           SplitHostPort host = Ok (ip, port) →
           ∃ inf, sampleInfoMap !! host = Some (Some inf) ∧
             let gameport := ExtraData.Port (ServerInfo.ExtraData inf) in
             (gameport ≠ 0%Z →
                server.Host s = Sprintf_host ip gameport ∧
                Sprintf_host ip gameport ∈ elems recorded) ∧
             (gameport = 0%Z → server.Host s = host))
        (filter (λ h, succeeds noIgnore sampleInfoMap sampleRuleMap
                        samplePlayerMap h = true) sampleHosts)
        (elems (serverList.Servers sl)).
Proof.
  eexists _, _.
  eassert (Hrun : buildServerList sampleEnv noIgnore sampleHosts sampleInfoMap
                    sampleRuleMap samplePlayerMap = (_, Returned (Ok _)))
    by (vm_compute; reflexivity).
  split; [exact Hrun|].
  exact (game_port_address sampleEnv noIgnore sampleInfoMap sampleRuleMap
           samplePlayerMap sampleHosts _ _ Hrun).
Defined.

(** The player lists of the assembled sample list. *)
Lemma players_never_nil_sample :
  ∃ log sl,
    buildServerList sampleEnv noIgnore sampleHosts sampleInfoMap sampleRuleMap
      samplePlayerMap = (log, Returned (Ok sl)) ∧
    Forall (λ s, server.Players s ≠ None) (elems (serverList.Servers sl)) ∧
    Forall2
      (λ host s,
         samplePlayerMap !! host = None ∨ samplePlayerMap !! host = Some None →
         server.Players s = Some [])
      (filter (λ h, succeeds noIgnore sampleInfoMap sampleRuleMap
                      samplePlayerMap h = true) sampleHosts)
      (elems (serverList.Servers sl)).
Proof.
  eexists _, _.
  eassert (Hrun : buildServerList sampleEnv noIgnore sampleHosts sampleInfoMap
                    sampleRuleMap samplePlayerMap = (_, Returned (Ok _)))
    by (vm_compute; reflexivity).
  split; [exact Hrun|].
  exact (players_never_nil sampleEnv noIgnore sampleInfoMap sampleRuleMap
           samplePlayerMap sampleHosts _ _ Hrun).
Defined.

(** The counts of the assembled sample list. *)
Lemma counts_match_lengths_sample :
  ∃ log sl,
    buildServerList sampleEnv noIgnore sampleHosts sampleInfoMap sampleRuleMap
      samplePlayerMap = (log, Returned (Ok sl)) ∧
    serverList.ServerCount sl = len (serverList.Servers sl) ∧
    serverList.FailedCount sl = len (serverList.FailedServers sl).
Proof.
  eexists _, _.
  eassert (Hrun : buildServerList sampleEnv noIgnore sampleHosts sampleInfoMap
                    sampleRuleMap samplePlayerMap = (_, Returned (Ok _)))
    by (vm_compute; reflexivity).
  split; [exact Hrun|].
  exact (proj1 (counts_match_lengths sampleEnv noIgnore sampleHosts sampleInfoMap
                  sampleRuleMap samplePlayerMap _ _ Hrun)).
Defined.

(** * Further properties *)

(** ** Events of a computation *)

Lemma events_mbind {A B} (m : M A) (k : A → M B) :
  events (m ≫= k) =
  events m ++ match ending m with
              | Returned a => events (k a)
              | _ => []
              end.
Proof.
  unfold mbind, M_bind, bind, events, ending.
  destruct m as [l [a| |]]; simpl; [by destruct (k a)|by rewrite app_nil_r..].
Qed.

Lemma ending_mbind {A B} (m : M A) (k : A → M B) :
  ending (m ≫= k) =
  match ending m with
  | Returned a => ending (k a)
  | Panicked => Panicked
  | Blocked => Blocked
  end.
Proof.
  unfold mbind, M_bind, bind, events, ending.
  destruct m as [l [a| |]]; simpl; [by destruct (k a)|done..].
Qed.

Lemma events_mbind_Forall {A B} (P : event → Prop) (m : M A) (k : A → M B) :
  Forall P (events m) → (∀ a, Forall P (events (k a))) →
  Forall P (events (m ≫= k)).
Proof.
  intros Hm Hk. rewrite events_mbind. apply Forall_app. split; [done|].
  destruct (ending m); [apply Hk|constructor..].
Qed.

Lemma events_forRange_Forall {A S} (P : event → Prop) (body : A → S → M S) xs :
  (∀ x st, Forall P (events (body x st))) →
  ∀ st, Forall P (events (forRange body xs st)).
Proof.
  intros Hbody. induction xs as [|x xs IH]; intros st; [constructor|].
  cbn [forRange]. by apply events_mbind_Forall.
Qed.

Lemma events_defer_Forall {A} (P : event → Prop) ev (m : M A) :
  Forall P (events m) → P ev → Forall P (events (defer ev m)).
Proof.
  unfold defer, events. destruct m as [l [a| |]]; simpl; intros Hl Hev;
    [|  |done]; apply Forall_app; by repeat constructor.
Qed.

(** ** More on the batch fan-out *)

Section fanout_more.
Context {Country : Type} (env : Env Country).

Lemma infoWorker_collect host st :
  infoWorker env host st = collect infoRequest (infoAnswer env) host st.
Proof.
  unfold infoWorker, collect, infoAnswer. destruct st as [m failed].
  by destruct (GetInfoForServer env host (QueryTimeout env)) as [info [e|]].
Qed.

Lemma collect_run {V} kind (answer : string → V * bool) order : ∀ st,
  events (forRange (collect kind answer) order st) = EvQuery kind <$> order ∧
  ∃ st', ending (forRange (collect kind answer) order st) = Returned st'.
Proof.
  induction order as [|host order IH]; intros st.
  - split; [done|]. by eexists.
  - rewrite (forRange_cons_returned _ _ _ _ _ _ (collect_eq kind answer host st)).
    destruct (IH (if (answer host).2 then (st.1, append st.2 host)
                  else (<[host:=(answer host).1]> st.1, st.2))) as [Hev Hend].
    unfold events, ending in *. simpl. by rewrite Hev.
Qed.

Lemma collect_partition {V} kind (answer : string → V * bool) order :
  ∃ log m failed,
    forRange (collect kind answer) order (∅, None) = (log, Returned (m, failed)) ∧
    ∀ h, (is_Some (m !! h) ∨ h ∈ elems failed ↔ h ∈ order) ∧
         ¬ (is_Some (m !! h) ∧ h ∈ elems failed).
Proof.
  destruct (collect_fanout kind answer order ∅ None)
    as (log & m & failed & Hrun & Hf & Hm).
  exists log, m, failed. split; [done|]. intros h.
  rewrite Hf, Hm. simpl. rewrite elem_of_nil.
  destruct (decide (h ∈ order ∧ (answer h).2 = false)) as [[Hin Hno]|Hn].
  - split; [split; [done|]; intros _; left; by eexists|].
    intros [_ [[]|[_ Hyes]]]. congruence.
  - rewrite lookup_empty. split.
    + split; [intros [[? [=]]|[[]|[? _]]]; done|].
      intros Hin. right. right. split; [done|].
      destruct (answer h).2; [done|]. destruct Hn. done.
    + intros [[? [=]] _].
Qed.

Lemma fanOut_as_collect order :
  infoFanOut env order
    = forRange (collect infoRequest (infoAnswer env)) order (∅, None) ∧
  playersFanOut env order
    = forRange (collect playerRequest (playersAnswer env)) order (∅, None) ∧
  rulesFanOut env order
    = forRange (collect ruleRequest (rulesAnswer env)) order (∅, None).
Proof.
  unfold infoFanOut, playersFanOut, rulesFanOut. repeat split.
  - apply forRange_ext, infoWorker_collect.
  - apply forRange_ext, playersWorker_collect.
  - apply forRange_ext, rulesWorker_collect.
Qed.

(** X1. In the info fan-out there is no tolerated error: whatever the
    order in which the workers finish, a host whose exchange ended with an
    error, [ErrNoInfo] included, is in the retry set and not in the map, and
    a host whose exchange ended without error is in the map, with the info
    returned, and not in the retry set. *)
Theorem info_fanout_every_error_retried (serverlist order : list string) :
  order ≡ₚ serverlist →
  ∃ log m failed,
    infoFanOut env order = (log, Returned (m, failed)) ∧
    ∀ host info err,
      host ∈ serverlist →
      GetInfoForServer env host (QueryTimeout env) = (info, err) →
      (err = None → m !! host = Some info ∧ host ∉ elems failed) ∧
      (∀ e, err = Some e → host ∈ elems failed ∧ m !! host = None).
Proof.
  intros Hperm. destruct (fanOut_as_collect order) as (-> & _ & _).
  destruct (collect_fanout infoRequest (infoAnswer env) order ∅ None)
    as (log & m & failed & Hrun & Hf & Hm).
  exists log, m, failed. split; [done|].
  intros host info err Hin Hq. rewrite <- Hperm in Hin.
  assert (Hans : infoAnswer env host =
            (info, match err with Some _ => true | None => false end))
    by (unfold infoAnswer; by rewrite Hq).
  split.
  - intros ->. split.
    + rewrite Hm, decide_True; by rewrite Hans.
    + rewrite Hf, Hans. simpl. rewrite elem_of_nil. by intros [[]|[_ [=]]].
  - intros e ->. split.
    + rewrite Hf, Hans. by right.
    + rewrite Hm, decide_False, lookup_empty; [done|].
      rewrite Hans. by intros [_ [=]].
Qed.

(** X2. After the fan-out of any kind, whatever the order in which the
    workers finished: a host is in the success map or in the retry set if
    and only if it was in the list, and no host is in both. *)
Theorem fanout_map_and_retry_set_partition (order : list string) :
  (∃ log m failed,
     infoFanOut env order = (log, Returned (m, failed)) ∧
     ∀ h, (is_Some (m !! h) ∨ h ∈ elems failed ↔ h ∈ order) ∧
          ¬ (is_Some (m !! h) ∧ h ∈ elems failed)) ∧
  (∃ log m failed,
     playersFanOut env order = (log, Returned (m, failed)) ∧
     ∀ h, (is_Some (m !! h) ∨ h ∈ elems failed ↔ h ∈ order) ∧
          ¬ (is_Some (m !! h) ∧ h ∈ elems failed)) ∧
  (∃ log m failed,
     rulesFanOut env order = (log, Returned (m, failed)) ∧
     ∀ h, (is_Some (m !! h) ∨ h ∈ elems failed ↔ h ∈ order) ∧
          ¬ (is_Some (m !! h) ∧ h ∈ elems failed)).
Proof.
  destruct (fanOut_as_collect order) as (-> & -> & ->).
  repeat split; apply collect_partition.
Qed.

Lemma fanOut_run order :
  (events (infoFanOut env order) = EvQuery infoRequest <$> order ∧
   ∃ st, ending (infoFanOut env order) = Returned st) ∧
  (events (playersFanOut env order) = EvQuery playerRequest <$> order ∧
   ∃ st, ending (playersFanOut env order) = Returned st) ∧
  (events (rulesFanOut env order) = EvQuery ruleRequest <$> order ∧
   ∃ st, ending (rulesFanOut env order) = Returned st).
Proof.
  destruct (fanOut_as_collect order) as (-> & -> & ->).
  repeat split; apply collect_run.
Qed.

(** X3. A fan-out starts exactly one exchange per entry of the host list,
    of its own kind and with the host of that entry, and nothing else; and
    it always comes back from [wg.Wait()]. *)
Theorem fanout_one_exchange_per_host (order : list string) :
  (events (infoFanOut env order) = EvQuery infoRequest <$> order ∧
   ∃ st, ending (infoFanOut env order) = Returned st) ∧
  (events (playersFanOut env order) = EvQuery playerRequest <$> order ∧
   ∃ st, ending (playersFanOut env order) = Returned st) ∧
  (events (rulesFanOut env order) = EvQuery ruleRequest <$> order ∧
   ∃ st, ending (rulesFanOut env order) = Returned st).
Proof. apply fanOut_run. Qed.

Lemma mergeInto_mergedFrom {V} (retried m : gmap string V) :
  mergedFrom retried m (mergeInto retried m).
Proof.
  intros h. unfold mergeInto. rewrite lookup_union.
  destruct (retried !! h), (m !! h); done.
Qed.

Lemma fanOut_then_retry {V} (fanout : M (gmap string V * slice string))
    (order : list string) kind n
    (retry : slice string → Z → gmap string V) :
  events fanout = EvQuery kind <$> order →
  (∃ st, ending fanout = Returned st) →
  ∃ m failed final,
    ending fanout = Returned (m, failed) ∧
    ('(m, failed) ← fanout;
     _ ← emit (EvRetry kind failed n);
     mret (mergeInto (retry failed n) m))
    = ((EvQuery kind <$> order) ++ [EvRetry kind failed n], Returned final) ∧
    mergedFrom (retry failed n) m final.
Proof.
  intros Hev [[m failed] Hend].
  exists m, failed, (mergeInto (retry failed n) m).
  split; [done|]. split; [|apply mergeInto_mergedFrom].
  destruct fanout as [l o]. unfold events, ending in *. simpl in *. subst.
  reflexivity.
Qed.

(** X4. Each of [getInfoForServers], [getPlayersForServers] and
    [getRulesForServers] runs all the exchanges of its fan-out first, then
    hands exactly the retry set of that fan-out to the retry policy, once,
    with 3 rounds for info and [QueryRetryCount] rounds for players and
    rules, and returns the fan-out map overwritten by what the retry policy
    brought back: a host keeps its first-round value unless the retry
    policy returns one for it. *)
Theorem retry_set_retried_and_merged (serverlist : list string) :
  (∃ m failed final,
     ending (infoFanOut env (completion env infoRequest serverlist))
       = Returned (m, failed) ∧
     getInfoForServers env serverlist =
       ((EvQuery infoRequest <$> completion env infoRequest serverlist) ++
        [EvRetry infoRequest failed 3], Returned final) ∧
     mergedFrom (RetryFailedInfoReq env failed 3) m final) ∧
  (∃ m failed final,
     ending (playersFanOut env (completion env playerRequest serverlist))
       = Returned (m, failed) ∧
     getPlayersForServers env serverlist =
       ((EvQuery playerRequest <$> completion env playerRequest serverlist) ++
        [EvRetry playerRequest failed (QueryRetryCount env)], Returned final) ∧
     mergedFrom (RetryFailedPlayersReq env failed (QueryRetryCount env)) m final) ∧
  (∃ m failed final,
     ending (rulesFanOut env (completion env ruleRequest serverlist))
       = Returned (m, failed) ∧
     getRulesForServers env serverlist =
       ((EvQuery ruleRequest <$> completion env ruleRequest serverlist) ++
        [EvRetry ruleRequest failed (QueryRetryCount env)], Returned final) ∧
     mergedFrom (RetryFailedRulesReq env failed (QueryRetryCount env)) m final).
Proof.
  destruct (fanOut_run (completion env infoRequest serverlist))
    as ((Hi1 & Hi2) & _ & _).
  destruct (fanOut_run (completion env playerRequest serverlist))
    as (_ & (Hp1 & Hp2) & _).
  destruct (fanOut_run (completion env ruleRequest serverlist))
    as (_ & _ & (Hr1 & Hr2)).
  repeat split.
  - exact (fanOut_then_retry _ _ _ 3%Z (RetryFailedInfoReq env) Hi1 Hi2).
  - exact (fanOut_then_retry _ _ _ (QueryRetryCount env)
             (RetryFailedPlayersReq env) Hp1 Hp2).
  - exact (fanOut_then_retry _ _ _ (QueryRetryCount env)
             (RetryFailedRulesReq env) Hr1 Hr2).
Qed.

End fanout_more.

(** ** More on the server-list assembler *)

Section assembler_more.
Context {Country : Type} (env : Env Country).
Variables (flt : Filter)
  (infomap : gmap string (option ServerInfo.t))
  (rulemap : gmap string (option (gmap string string)))
  (playermap : gmap string (slice PlayerInfo.t)).

Lemma successBranch_exact host info players rules use i dbh l srv dbh' :
  successBranch env host info players rules use i dbh = (l, Returned (srv, dbh')) →
  server.ID srv = 0%Z ∧
  entryEndpoint env host srv ∧
  l = from_option (λ ev, [ev]) [] (countryEvent host) ∧
  match SplitHostPort host with
  | Ok (ip, _) =>
      ∃ inf, info = Some inf ∧
        dbh' = if bool_decide (ExtraData.Port (ServerInfo.ExtraData inf) ≠ 0%Z)
               then append dbh
                      (Sprintf_host ip (ExtraData.Port (ServerInfo.ExtraData inf)))
               else dbh
  | Err _ => dbh' = dbh
  end.
Proof.
  unfold successBranch, entryEndpoint, countryEvent.
  destruct (SplitHostPort host) as [[ip port]|e].
  - destruct info as [inf|]; [|discriminate].
    destruct (bool_decide (ExtraData.Port (ServerInfo.ExtraData inf) ≠ 0%Z))
      eqn:Hgp;
      rewrite emit_bind; intros [= <- Hk];
      destruct (GetCountryInfo env ip) as [loc|]; try discriminate;
      simpl in Hk; injection Hk as <- <-; simpl.
    all: split; [done|]. all: split; [done|]. all: split; [done|].
    all: exists inf; by rewrite Hgp.
  - intros [= <- <- <-]. simpl. repeat split; done.
Qed.

Lemma hostBody_exact host st log st' :
  hostBody env flt infomap rulemap playermap host st = (log, Returned st') →
  if succeeds flt infomap rulemap playermap host then
    ∃ srv,
      Servers st' = append (Servers st) srv ∧
      FailedServers st' = FailedServers st ∧
      server.ID srv = 0%Z ∧
      entryEndpoint env host srv ∧
      log = from_option (λ ev, [ev]) [] (countryEvent host) ∧
      dbhosts st' = from_option (append (dbhosts st)) (dbhosts st)
                      (derivedAddress infomap host) ∧
      successcount st' = (successcount st + 1)%Z
  else
    Servers st' = Servers st ∧
    FailedServers st' = append (FailedServers st) host ∧
    log = [] ∧
    dbhosts st' = dbhosts st ∧
    successcount st' = successcount st.
Proof.
  unfold hostBody, succeeds. rewrite !commaOk_eq.
  set (success := hostSuccess _ _ _ _).
  set (use' := if HasIgnoreInfo flt then true else useEmptyInfo st).
  set (i' := if HasIgnoreInfo flt then InfoEmptyMap else InfoNil).
  assert (Hlet : (if HasIgnoreInfo flt then (true, InfoEmptyMap)
                  else (useEmptyInfo st, InfoNil)) = (use', i'))
    by (subst use' i'; by destruct (HasIgnoreInfo flt)).
  rewrite Hlet. destruct success.
  - intros (l1 & [srv dbh'] & l2 & Hsb & Hret & ->)%mbind_returned.
    apply mret_returned in Hret as [-> <-]. simpl. rewrite app_nil_r.
    apply successBranch_exact in Hsb as (Hid & Hend & Hl & Hdb).
    exists srv. repeat split; try done.
    unfold derivedAddress.
    destruct (SplitHostPort host) as [[ip port]|]; [|done].
    destruct Hdb as (inf & -> & ->). simpl. by case_bool_decide.
  - intros [-> <-]%mret_returned. simpl. done.
Qed.

Lemma omap_cons_eq {A B} (f : A → option B) x l :
  omap f (x :: l) = match f x with
                    | Some y => y :: omap f l
                    | None => omap f l
                    end.
Proof. reflexivity. Qed.

Lemma hostLoop_detail servers : ∀ st log st',
  forRange (hostBody env flt infomap rulemap playermap) servers st
    = (log, Returned st') →
  let successes :=
    filter (λ h, succeeds flt infomap rulemap playermap h = true) servers in
  let failures :=
    filter (λ h, succeeds flt infomap rulemap playermap h = false) servers in
  ∃ new,
    elems (Servers st') = elems (Servers st) ++ new ∧
    Forall2 (entryEndpoint env) successes new ∧
    Forall (λ s, server.ID s = 0%Z) new ∧
    log = omap (countryEvent) successes ∧
    dbhosts st' = match omap (derivedAddress infomap) successes with
                  | [] => dbhosts st
                  | l => Some (elems (dbhosts st) ++ l)
                  end ∧
    FailedServers st' = match failures with
                        | [] => FailedServers st
                        | l => Some (elems (FailedServers st) ++ l)
                        end ∧
    successcount st' = (successcount st + Z.of_nat (length new))%Z.
Proof.
  induction servers as [|host servers IH]; intros st log st'.
  - intros [-> <-]%mret_returned. exists []. simpl. rewrite app_nil_r.
    repeat split; try done. lia.
  - cbn [forRange].
    intros (l1 & st1 & l2 & Hbody & Hrest & ->)%mbind_returned.
    apply hostBody_exact in Hbody.
    apply IH in Hrest as (new & HS & Hend & Hid & Hlog & Hdb & HF & Hcount).
    cbv zeta. rewrite !filter_cons.
    set (successes :=
           filter (λ h, succeeds flt infomap rulemap playermap h = true) servers)
      in *.
    set (failures :=
           filter (λ h, succeeds flt infomap rulemap playermap h = false) servers)
      in *.
    destruct (succeeds flt infomap rulemap playermap host) eqn:Hsucc;
      cbn [decide_rel decide bool_eq_dec].
    + destruct Hbody as (srv & HS1 & HF1 & Hid1 & Hend1 & Hl1 & Hdb1 & Hc1).
      exists (srv :: new).
      rewrite (decide_True (P := true = true)) by done.
      rewrite (decide_False (P := true = false)) by done.
      rewrite !omap_cons_eq.
      rewrite HS, HS1, HF, HF1, Hl1, Hlog, Hdb, Hdb1, Hcount, Hc1.
      set (rest := omap (derivedAddress infomap) successes).
      split; [unfold append; simpl; by rewrite <- app_assoc|].
      split; [by constructor|]. split; [by constructor|].
      split; [by destruct (countryEvent host)|].
      split; [|split; [done|simpl; lia]].
      destruct (derivedAddress infomap host) as [a|]; simpl; [|done].
      destruct rest; simpl; [done|]. by rewrite <- app_assoc.
    + destruct Hbody as (HS1 & HF1 & Hl1 & Hdb1 & Hc1).
      exists new.
      rewrite (decide_True (P := false = false)) by done.
      rewrite (decide_False (P := false = true)) by done.
      rewrite HS, HS1, HF, HF1, Hl1, Hlog, Hdb, Hdb1, Hcount, Hc1.
      split; [done|]. split; [done|]. split; [done|]. split; [done|].
      split; [done|]. split; [|done].
      unfold append. simpl. destruct failures; simpl; [done|].
      by rewrite <- app_assoc.
Qed.

Lemma hostsOf_appended (servers : slice (server.t Country)) :
  hostsOf servers = appended (server.Host <$> elems servers).
Proof.
  unfold hostsOf.
  assert (Hgen : ∀ (l : list (server.t Country)) acc,
            foldl (λ toSet s, append toSet (server.Host s)) acc l =
            match l with
            | [] => acc
            | _ => Some (elems acc ++ (server.Host <$> l))
            end).
  { induction l as [|s l IH]; intros acc; [done|]. simpl. rewrite IH.
    destruct l; simpl; [done|]. by rewrite <- app_assoc. }
  rewrite Hgen. by destruct (elems servers).
Qed.

Lemma assignID_host m (s : server.t Country) :
  server.Host (assignID m s) = server.Host s.
Proof. unfold assignID. by case_bool_decide. Qed.

Lemma assignID_endpoint m host (s : server.t Country) :
  entryEndpoint env host s → entryEndpoint env host (assignID m s).
Proof. unfold assignID. case_bool_decide; [|done]. by destruct s. Qed.

Lemma assignID_fresh m (s : server.t Country) :
  server.ID s = 0%Z → server.ID (assignID m s) = default 0%Z (m !! server.Host s).
Proof.
  intros Hid. unfold assignID. case_bool_decide as Hz; [done|].
  rewrite Hid. destruct (decide (default 0%Z (m !! server.Host s) = 0%Z)) as [->|]; done.
Qed.

(** The whole of what a returned call did and built. *)
Lemma buildServerList_detail servers log sl :
  buildServerList env flt servers infomap rulemap playermap
    = (log, Returned (Ok sl)) →
  let successes :=
    filter (λ h, succeeds flt infomap rulemap playermap h = true) servers in
  let failures :=
    filter (λ h, succeeds flt infomap rulemap playermap h = false) servers in
  let asked := appended (server.Host <$> elems (serverList.Servers sl)) in
  ∃ ids,
    GetIDsForServerList env asked = Some ids ∧
    log = [EvOpenCountryDB; EvOpenServerDB] ++ omap (countryEvent) successes ++
          [EvAddServersToDB (appended (omap (derivedAddress infomap) successes));
           EvGetIDsForServerList asked; EvCloseCountryDB] ∧
    Forall2 (entryEndpoint env) successes (elems (serverList.Servers sl)) ∧
    Forall (λ s, server.ID s = default 0%Z (ids !! server.Host s))
      (elems (serverList.Servers sl)) ∧
    serverList.FailedServers sl = appended failures ∧
    serverList.RetrievedAt sl = NowFormat env ∧
    serverList.RetrievedTimeStamp sl = NowUnix env.
Proof.
  unfold buildServerList.
  destruct (ignoresAll flt); [intros [= _ ?]; done|].
  intros (l1 & [] & l2 & Hop & H & ->)%mbind_returned. injection Hop as <-.
  destruct (OpenCountryDB env); [by apply mret_returned in H as [_ ?]|].
  apply defer_returned in H as (l & H & ->).
  apply mbind_returned in H as (l3 & [] & l4 & Hop & H & ->). injection Hop as <-.
  destruct (OpenServerDB env); [by apply mret_returned in H as [_ ?]|].
  apply mbind_returned in H as (l5 & st & l6 & Hloop & H & ->).
  apply mbind_returned in H as (l7 & [] & l8 & Hev & H & ->).
  injection Hev as <-.
  apply mbind_returned in H as (l9 & sl' & l10 & Hset & H & ->).
  apply mret_returned in H as [-> [= <-]].
  unfold setServerIDForList in Hset.
  apply mbind_returned in Hset as (l11 & [] & l12 & Hev & Hset & ->).
  injection Hev as <-.
  apply mbind_returned in Hset as (l13 & m & l14 & Hrecv & Hset & ->).
  apply recv_returned in Hrecv as [Hids ->].
  apply mret_returned in Hset as [-> <-].
  cbn [serverList.Servers serverList.FailedServers serverList.RetrievedAt
       serverList.RetrievedTimeStamp] in *.
  apply hostLoop_detail in Hloop
    as (new & HS & Hend & Hid & -> & Hdb & HF & _).
  cbn [Servers FailedServers dbhosts] in *.
  simpl in HS.
  assert (Hel : elems (forEachPtr (assignID m) (Servers st)) = assignID m <$> new).
  { destruct (Servers st); simpl in *; by subst. }
  assert (Hhosts : server.Host <$> (assignID m <$> new) = server.Host <$> new).
  { rewrite <- list_fmap_compose. apply list_fmap_ext. intros ? s _. simpl.
    apply assignID_host. }
  rewrite hostsOf_appended, HS in *.
  cbv zeta. rewrite Hel, Hhosts.
  exists m. split; [done|]. split.
  - rewrite Hdb. simpl. rewrite <- !app_assoc. simpl.
    by destruct (omap (derivedAddress infomap) _).
  - split; [|split; [|split; [|done]]].
    + apply Forall2_fmap_r. eapply Forall2_impl; [exact Hend|].
      intros h s Hs. by apply assignID_endpoint.
    + apply Forall_fmap. eapply Forall_impl; [exact Hid|].
      intros s Hs. simpl. rewrite assignID_host. by apply assignID_fresh.
    + rewrite HF. by destruct (filter _ servers).
Qed.

End assembler_more.

Section assembler_props.
Context {Country : Type} (env : Env Country).
Variables (flt : Filter)
  (infomap : gmap string (option ServerInfo.t))
  (rulemap : gmap string (option (gmap string string)))
  (playermap : gmap string (slice PlayerInfo.t)).

(** X5. A call of [buildServerList] that returns a list has done, in this
    order and nothing else: opened the country database, opened the server
    database, looked up the country of each successful host whose address
    splits (one lookup per such host, in input order, none for a failed
    host), handed to [AddServersToDB] the addresses derived from non-zero
    game ports (a nil slice when there is none), asked the ids of the
    addresses of all listed servers, and closed the country database. *)
Theorem assembler_effects_in_order servers log sl :
  buildServerList env flt servers infomap rulemap playermap
    = (log, Returned (Ok sl)) →
  let successes :=
    filter (λ h, succeeds flt infomap rulemap playermap h = true) servers in
  log = [EvOpenCountryDB; EvOpenServerDB] ++
        omap (countryEvent) successes ++
        [EvAddServersToDB (appended (omap (derivedAddress infomap) successes));
         EvGetIDsForServerList
           (appended (server.Host <$> elems (serverList.Servers sl)));
         EvCloseCountryDB].
Proof.
  intros (ids & _ & Hlog & _)%buildServerList_detail. exact Hlog.
Qed.

(** X6. In the serialisation of every list returned by [buildServerList]
    the member [servers] is an array, also when no host succeeded, and the
    member [players] of every server is an array; the member
    [failedServers] is [null] when no host failed, and the array of the
    failed hosts, in input order, when one did. *)
Theorem serialised_lists_and_null servers log sl :
  buildServerList env flt servers infomap rulemap playermap
    = (log, Returned (Ok sl)) →
  let failures :=
    filter (λ h, succeeds flt infomap rulemap playermap h = false) servers in
  member "servers" (MarshalServerList env sl)
    = Some (JArray (MarshalServer env <$> elems (serverList.Servers sl))) ∧
  Forall (λ s, ∃ items, member "players" (MarshalServer env s) = Some (JArray items))
    (elems (serverList.Servers sl)) ∧
  member "failedServers" (MarshalServerList env sl)
    = Some (match failures with
            | [] => JNull
            | _ => JArray (JString <$> failures)
            end).
Proof.
  intros Hrun.
  destruct (buildServerList_returned _ _ _ _ _ _ _ _ Hrun)
    as (_ & recorded & _ & [srvs Hsrvs] & Hall & _).
  destruct (buildServerList_detail _ _ _ _ _ _ _ _ Hrun)
    as (ids & _ & _ & _ & _ & HF & _).
  cbv zeta. split; [|split].
  - simpl. by rewrite Hsrvs.
  - eapply Forall2_Forall_r; [exact Hall|]. apply Forall_forall.
    intros host _ s (Hp & _). simpl. rewrite Hp. by eexists.
  - simpl. rewrite HF.
    generalize (filter (λ h, succeeds flt infomap rulemap playermap h = false)
                  servers).
    intros [|h l]; reflexivity.
Qed.

(** X7. In every list returned by [buildServerList] the id of a server
    is the one the id lookup returned for the server's listed address (the
    address derived from the game port when there is one), and 0 when the
    lookup has none for it; the lookup was asked once, for the listed
    addresses of all servers in list order. *)
Theorem ids_follow_listed_address servers log sl :
  buildServerList env flt servers infomap rulemap playermap
    = (log, Returned (Ok sl)) →
  ∃ ids,
    GetIDsForServerList env
      (appended (server.Host <$> elems (serverList.Servers sl))) = Some ids ∧
    Forall (λ s, server.ID s = default 0%Z (ids !! server.Host s))
      (elems (serverList.Servers sl)).
Proof.
  intros (ids & Hids & _ & _ & Hid & _)%buildServerList_detail.
  by exists ids.
Qed.

(** X8. In every list returned by [buildServerList], the entry of a
    successful host whose address splits into ip and port has that ip, the
    number the port spells (0 when it spells none) and the country the
    lookup of that ip replied; a successful host whose address does not
    split is listed all the same, with an empty address, an empty ip,
    port 0 and no country. *)
Theorem endpoint_fields servers log sl :
  buildServerList env flt servers infomap rulemap playermap
    = (log, Returned (Ok sl)) →
  Forall2
    (λ host s,
       match SplitHostPort host with
       | Ok (ip, port) =>
           server.IP s = ip ∧
           server.Port s = match Atoi port with Ok p => p | Err _ => 0%Z end ∧
           GetCountryInfo env ip = Some (server.CountryInfo s)
       | Err _ =>
           server.Host s = "" ∧ server.IP s = "" ∧ server.Port s = 0%Z ∧
           server.CountryInfo s = None
       end)
    (filter (λ h, succeeds flt infomap rulemap playermap h = true) servers)
    (elems (serverList.Servers sl)).
Proof.
  intros (ids & _ & _ & Hend & _)%buildServerList_detail. exact Hend.
Qed.

(** X9. When a database cannot be opened, [buildServerList] examines no
    host and returns what [util.LogAppError] gives back for the error of
    the open call: if it is the country database, nothing else is
    touched; if it is the server database, the country database, which
    was opened, is closed. *)
Theorem database_open_failures servers err :
  ignoresAll flt = false →
  OpenCountryDB env = Some err ∨
  (OpenCountryDB env = None ∧ OpenServerDB env = Some err) →
  buildServerList env flt servers infomap rulemap playermap =
    (EvOpenCountryDB ::
     match OpenCountryDB env with
     | Some _ => []
     | None => [EvOpenServerDB; EvCloseCountryDB]
     end,
     Returned (Err (LogAppError err))).
Proof.
  intros Hguard Hdown. unfold buildServerList. rewrite Hguard.
  destruct Hdown as [-> | [-> ->]]; reflexivity.
Qed.

Lemma hostBody_events_Forall (P : event → Prop) :
  (∀ ip, P (EvGetCountryInfo ip)) →
  ∀ host st,
    Forall P (events (hostBody env flt infomap rulemap playermap host st)).
Proof.
  intros HP host st. unfold hostBody.
  destruct (commaOk None infomap host) as [info iok].
  destruct (commaOk None playermap host) as [players pok].
  destruct (commaOk None rulemap host) as [rules rok].
  destruct (HasIgnoreInfo flt); (destruct (hostSuccess flt iok pok rok);
    [|constructor]);
    (apply events_mbind_Forall; [|intros [??]; constructor]);
    unfold successBranch; (destruct (SplitHostPort host) as [[ip port]|];
    [|constructor]); (destruct info; [|constructor]);
    destruct (bool_decide _);
    (apply events_mbind_Forall; [by repeat constructor|]); intros [];
    (apply events_mbind_Forall; [|intros ?; constructor]);
    destruct (GetCountryInfo env ip); constructor.
Qed.

Lemma buildServerList_events_Forall (P : event → Prop) servers :
  P EvOpenCountryDB → P EvOpenServerDB → P EvCloseCountryDB →
  (∀ ip, P (EvGetCountryInfo ip)) →
  (∀ hosts, P (EvAddServersToDB hosts)) →
  (∀ hosts, P (EvGetIDsForServerList hosts)) →
  Forall P (events (buildServerList env flt servers infomap rulemap playermap)).
Proof.
  intros H1 H2 H3 H4 H5 H6. unfold buildServerList.
  destruct (ignoresAll flt); [constructor|].
  apply events_mbind_Forall; [by repeat constructor|]. intros [].
  destruct (OpenCountryDB env); [constructor|].
  apply events_defer_Forall; [|done].
  apply events_mbind_Forall; [by repeat constructor|]. intros [].
  destruct (OpenServerDB env); [constructor|].
  apply events_mbind_Forall;
    [by apply events_forRange_Forall, hostBody_events_Forall|].
  intros st. apply events_mbind_Forall; [by repeat constructor|]. intros [].
  apply events_mbind_Forall; [|intros ?; constructor].
  unfold setServerIDForList.
  apply events_mbind_Forall; [by repeat constructor|]. intros [].
  apply events_mbind_Forall; [|intros ?; constructor].
  destruct (GetIDsForServerList env _); constructor.
Qed.

(** X10. However a call of [buildServerList] ends, it starts no network
    exchange and does not touch the snapshot file. *)
Theorem assembler_stays_local servers :
  Forall (λ ev, isNetwork ev = false ∧ touchesFile ev = false)
    (events (buildServerList env flt servers infomap rulemap playermap)).
Proof. by apply buildServerList_events_Forall. Qed.

(** X11. Once [buildServerList] has opened the country database, it
    closes it on every way out, by return or by panic, as its last action;
    a call that blocks on a database reply never closes it. *)
Theorem country_db_closed_on_exit servers :
  ignoresAll flt = false →
  OpenCountryDB env = None →
  let run := buildServerList env flt servers infomap rulemap playermap in
  (ending run ≠ Blocked → last (events run) = Some EvCloseCountryDB) ∧
  (ending run = Blocked → EvCloseCountryDB ∉ events run).
Proof.
  intros Hguard Hcdb run. subst run. unfold buildServerList.
  rewrite Hguard, Hcdb.
  set (body := _ ← emit EvOpenServerDB; _).
  assert (Hbody : Forall (λ ev, ev ≠ EvCloseCountryDB) (events body)).
  { subst body. apply events_mbind_Forall; [by repeat constructor|]. intros [].
    destruct (OpenServerDB env); [constructor|].
    apply events_mbind_Forall;
      [by apply events_forRange_Forall, hostBody_events_Forall|].
    intros st. apply events_mbind_Forall; [by repeat constructor|]. intros [].
    apply events_mbind_Forall; [|intros ?; constructor].
    unfold setServerIDForList.
    apply events_mbind_Forall; [by repeat constructor|]. intros [].
    apply events_mbind_Forall; [|intros ?; constructor].
    destruct (GetIDsForServerList env _); constructor. }
  rewrite emit_bind. unfold events, ending in *. cbn [fst snd].
  destruct body as [l [r| |]]; simpl in *.
  - split; [intros _|done]. by rewrite last_cons, last_snoc.
  - split; [intros _|done]. by rewrite last_cons, last_snoc.
  - split; [done|intros _]. rewrite elem_of_cons. intros [[=]|Hin].
    rewrite Forall_forall in Hbody. by apply (Hbody _ Hin).
Qed.

(** X12. The rules of the entries of a returned list: with
    [HasIgnoreRules] set every entry has the empty map, serialised as an
    object; without it every entry has what the rules map holds for its
    host, so a host stored with nil rules is serialised with [null]. *)
Theorem rules_of_entries servers log sl :
  buildServerList env flt servers infomap rulemap playermap
    = (log, Returned (Ok sl)) →
  Forall2
    (λ host s,
       if HasIgnoreRules flt then
         server.Rules s = Some ∅ ∧
         member "rules" (MarshalServer env s) = Some (JStringMap ∅)
       else
         server.Rules s = default None (rulemap !! host) ∧
         (rulemap !! host = Some None →
            member "rules" (MarshalServer env s) = Some JNull))
    (filter (λ h, succeeds flt infomap rulemap playermap h = true) servers)
    (elems (serverList.Servers sl)).
Proof.
  intros (_ & recorded & _ & _ & Hall & _)%buildServerList_returned.
  eapply Forall2_impl; [exact Hall|].
  intros host s (_ & Hr & _). simpl. rewrite Hr.
  destruct (HasIgnoreRules flt); [done|]. split; [done|]. by intros ->.
Qed.

End assembler_props.

(** ** More on [retrieve] *)

Section retrieve_props.
Context {Country : Type} (env : Env Country) (flt : Filter).

Lemma returned_bind {A B} l (a : A) (k : A → M B) :
  ((l, Returned a) : M A) ≫= k = (l ++ events (k a), ending (k a)).
Proof. unfold mbind, M_bind, bind, events, ending. by destruct (k a). Qed.

Lemma getters_run (serverlist : list string) :
  (∃ failed final,
     getInfoForServers env serverlist =
       ((EvQuery infoRequest <$> completion env infoRequest serverlist) ++
        [EvRetry infoRequest failed 3], Returned final)) ∧
  (∃ failed final,
     getPlayersForServers env serverlist =
       ((EvQuery playerRequest <$> completion env playerRequest serverlist) ++
        [EvRetry playerRequest failed (QueryRetryCount env)], Returned final)) ∧
  (∃ failed final,
     getRulesForServers env serverlist =
       ((EvQuery ruleRequest <$> completion env ruleRequest serverlist) ++
        [EvRetry ruleRequest failed (QueryRetryCount env)], Returned final)).
Proof.
  destruct (fanOut_run env (completion env infoRequest serverlist))
    as ((Hi1 & Hi2) & _ & _).
  destruct (fanOut_run env (completion env playerRequest serverlist))
    as (_ & (Hp1 & Hp2) & _).
  destruct (fanOut_run env (completion env ruleRequest serverlist))
    as (_ & _ & (Hr1 & Hr2)).
  repeat split.
  - destruct (fanOut_then_retry _ _ _ 3%Z (RetryFailedInfoReq env) Hi1 Hi2)
      as (m & failed & final & _ & Hrun & _). by exists failed, final.
  - destruct (fanOut_then_retry _ _ _ (QueryRetryCount env)
                (RetryFailedPlayersReq env) Hp1 Hp2)
      as (m & failed & final & _ & Hrun & _). by exists failed, final.
  - destruct (fanOut_then_retry _ _ _ (QueryRetryCount env)
                (RetryFailedRulesReq env) Hr1 Hr2)
      as (m & failed & final & _ & Hrun & _). by exists failed, final.
Qed.

(** What [retrieve] does once the master query has answered and the
    filter has passed the guard. *)
Lemma retrieve_run servers :
  NewMasterQuery env flt = Ok servers →
  ignoresAll flt = false →
  ∃ fp fr fi players rules info,
    (HasIgnorePlayers flt = true → players = ∅) ∧
    (HasIgnoreRules flt = true → rules = ∅) ∧
    (HasIgnoreInfo flt = true → info = ∅) ∧
    let rest :=
      buildServerList env flt servers info rules players ≫= writeSnapshot env in
    events (retrieve env flt) =
      EvMasterQuery ::
      phase env flt servers playerRequest fp (QueryRetryCount env) ++
      phase env flt servers ruleRequest fr (QueryRetryCount env) ++
      phase env flt servers infoRequest fi 3 ++ events rest ∧
    ending (retrieve env flt) = ending rest.
Proof.
  intros Hmq Hguard.
  destruct (getters_run servers)
    as ((fi & info & Hi) & (fp & players & Hp) & (fr & rules & Hr)).
  exists fp, fr, fi,
    (if HasIgnorePlayers flt then ∅ else players),
    (if HasIgnoreRules flt then ∅ else rules),
    (if HasIgnoreInfo flt then ∅ else info).
  split; [by intros ->|]. split; [by intros ->|]. split; [by intros ->|].
  assert (HP : (if negb (HasIgnorePlayers flt)
                then getPlayersForServers env servers else mret ∅) =
               (phase env flt servers playerRequest fp (QueryRetryCount env),
                Returned (if HasIgnorePlayers flt then ∅ else players)))
    by (unfold phase, skips; by destruct (HasIgnorePlayers flt)).
  assert (HR : (if negb (HasIgnoreRules flt)
                then getRulesForServers env servers else mret ∅) =
               (phase env flt servers ruleRequest fr (QueryRetryCount env),
                Returned (if HasIgnoreRules flt then ∅ else rules)))
    by (unfold phase, skips; by destruct (HasIgnoreRules flt)).
  assert (HI : (if negb (HasIgnoreInfo flt)
                then getInfoForServers env servers else mret ∅) =
               (phase env flt servers infoRequest fi 3,
                Returned (if HasIgnoreInfo flt then ∅ else info)))
    by (unfold phase, skips; by destruct (HasIgnoreInfo flt)).
  cbv zeta. unfold retrieve.
  rewrite emit_bind, Hmq, Hguard, HP, returned_bind, HR, returned_bind,
    HI, returned_bind.
  fold (writeSnapshot env). unfold events, ending. cbn [fst snd]. done.
Qed.

Lemma phase_kind servers kind failed n :
  Forall (λ ev, eventKind ev = Some kind ∧ touchesFile ev = false)
    (phase env flt servers kind failed n).
Proof.
  unfold phase. destruct (skips flt kind); [constructor|].
  apply Forall_app. split; [|by repeat constructor].
  apply Forall_fmap, Forall_forall. by intros h _.
Qed.

Lemma writeSnapshot_run built :
  writeSnapshot env built =
  match built with
  | Err err => ([], Returned (Some err))
  | Ok sl =>
      let j := MarshalServerList env sl in
      match CreateFile env "servers.json" with
      | Some err =>
          ([EvCreateFile "servers.json"],
           Returned (Some (LogAppErrorfWrap "Error creating json file: %s" err)))
      | None =>
          ([EvCreateFile "servers.json"; EvWriteFile j],
           Returned (match WriteFile env j with
                     | Some err =>
                         Some (LogAppErrorfWrap "Error writing json file: %s" err)
                     | None => None
                     end))
      end
  end.
Proof.
  unfold writeSnapshot. destruct built as [sl|err]; [|done].
  cbv zeta. rewrite emit_bind.
  destruct (CreateFile env "servers.json"); [done|]. rewrite emit_bind.
  by destruct (WriteFile env _).
Qed.

Lemma rest_kindless servers info rules players :
  Forall (λ ev, eventKind ev = None ∧ isNetwork ev = false)
    (events (buildServerList env flt servers info rules players
             ≫= writeSnapshot env)).
Proof.
  apply events_mbind_Forall; [by apply buildServerList_events_Forall|].
  intros built. rewrite writeSnapshot_run.
  destruct built as [sl|err]; [|constructor]. cbv zeta.
  destruct (CreateFile env "servers.json"); by repeat constructor.
Qed.

(** X13. [retrieve] causes no traffic for a kind the filter skips:
    whatever the master query answers and however the run ends, no
    exchange and no retry round of that kind is started. *)
Theorem skipped_kind_never_queried (kind : requestType) :
  skips flt kind = true →
  Forall (λ ev, eventKind ev ≠ Some kind) (events (retrieve env flt)).
Proof.
  intros Hskip.
  destruct (NewMasterQuery env flt) as [servers|err] eqn:Hmq.
  2:{ unfold retrieve. rewrite emit_bind, Hmq. by repeat constructor. }
  destruct (ignoresAll flt) eqn:Hguard.
  { unfold retrieve. rewrite emit_bind, Hmq, Hguard. by repeat constructor. }
  destruct (retrieve_run servers Hmq Hguard)
    as (fp & fr & fi & players & rules & info & _ & _ & _ & Hev & _).
  rewrite Hev. constructor; [done|].
  assert (Hphase : ∀ k failed n,
            Forall (λ ev, eventKind ev ≠ Some kind)
              (phase env flt servers k failed n)).
  { intros k failed n.
    assert (Hdec : k = kind ∨ k ≠ kind)
      by (destruct k, kind; (by left) || (by right)).
    destruct Hdec as [->|Hne].
    - unfold phase. rewrite Hskip. constructor.
    - eapply Forall_impl; [apply phase_kind|]. intros ev [-> _]. congruence. }
  rewrite !Forall_app. repeat split; try apply Hphase.
  eapply Forall_impl; [apply rest_kindless|]. by intros ev [-> _].
Qed.

(** X14. When the master query has answered and the filter has passed the
    guard, [retrieve] works in phases: the master query, then all the
    players exchanges followed by the players retry round, then the same
    for rules, then the same for info, a skipped kind contributing
    nothing; whatever follows (the assembler, the snapshot file) starts no
    network exchange. *)
Theorem retrieval_in_phases (servers : list string) :
  NewMasterQuery env flt = Ok servers →
  ignoresAll flt = false →
  ∃ fp fr fi rest,
    events (retrieve env flt) =
      EvMasterQuery ::
      phase env flt servers playerRequest fp (QueryRetryCount env) ++
      phase env flt servers ruleRequest fr (QueryRetryCount env) ++
      phase env flt servers infoRequest fi 3 ++ rest ∧
    Forall (λ ev, isNetwork ev = false) rest.
Proof.
  intros Hmq Hguard.
  destruct (retrieve_run servers Hmq Hguard)
    as (fp & fr & fi & players & rules & info & _ & _ & _ & Hev & _).
  eexists fp, fr, fi, _. split; [exact Hev|].
  eapply Forall_impl; [apply rest_kindless|]. by intros ev [_ ?].
Qed.

(** X15. When [retrieve] returns nil, the master query had answered, the
    assembler had returned a list for the hosts of that answer (with an
    empty map for each skipped kind), and the last two things done were
    to create servers.json and to write the serialisation of that list;
    nothing before touched the file. *)
Theorem snapshot_written_on_success :
  ending (retrieve env flt) = Returned None →
  ∃ servers players rules info log sl pre,
    NewMasterQuery env flt = Ok servers ∧
    (HasIgnorePlayers flt = true → players = ∅) ∧
    (HasIgnoreRules flt = true → rules = ∅) ∧
    (HasIgnoreInfo flt = true → info = ∅) ∧
    buildServerList env flt servers info rules players
      = (log, Returned (Ok sl)) ∧
    events (retrieve env flt) =
      pre ++ [EvCreateFile "servers.json";
              EvWriteFile (MarshalServerList env sl)] ∧
    Forall (λ ev, touchesFile ev = false) pre.
Proof.
  intros Hend.
  destruct (NewMasterQuery env flt) as [servers|err] eqn:Hmq.
  2:{ unfold retrieve in Hend. rewrite emit_bind, Hmq in Hend. discriminate. }
  destruct (ignoresAll flt) eqn:Hguard.
  { unfold retrieve in Hend. rewrite emit_bind, Hmq, Hguard in Hend.
    discriminate. }
  destruct (retrieve_run servers Hmq Hguard)
    as (fp & fr & fi & players & rules & info & Hp & Hr & Hi & Hev & Hend').
  cbv zeta in *. rewrite Hend' in Hend. rewrite Hev. clear Hev Hend'.
  destruct (buildServerList env flt servers info rules players)
    as [log o] eqn:Hrun.
  rewrite events_mbind. rewrite ending_mbind in Hend.
  unfold events, ending in *. cbn [fst snd] in *.
  destruct o as [built| |]; try discriminate.
  rewrite writeSnapshot_run in *.
  destruct built as [sl|err]; [|discriminate]. cbv zeta in *.
  destruct (CreateFile env "servers.json"); [discriminate|].
  cbn [fst snd] in *.
  destruct (WriteFile env (MarshalServerList env sl)); [discriminate|].
  exists servers, players, rules, info, log, sl.
  exists (EvMasterQuery ::
          phase env flt servers playerRequest fp (QueryRetryCount env) ++
          phase env flt servers ruleRequest fr (QueryRetryCount env) ++
          phase env flt servers infoRequest fi 3 ++ log).
  repeat split; try done.
  - simpl. by rewrite <- !app_assoc.
  - constructor; [done|]. rewrite !Forall_app. repeat split;
      try (eapply Forall_impl; [apply phase_kind|]; by intros ev [_ ?]).
    pose proof (buildServerList_events_Forall env flt info rules players
                  (λ ev, touchesFile ev = false) servers) as Hb.
    rewrite Hrun in Hb. by apply Hb.
Qed.



End retrieve_props.

(** ** The server identification database *)

Section db_props.
Context (eng : db.Engine).

Lemma whereHostGame_cases tbl h g :
  (db.whereHostGame tbl h g = [] ∧ ¬ stored tbl h g ∧ idFor tbl h g = 0%Z) ∨
  (∃ r, db.whereHostGame tbl h g = [r] ∧ r ∈ tbl ∧
        db.host r = h ∧ db.game r = g ∧ idFor tbl h g = db.server_id r).
Proof.
  unfold db.whereHostGame, stored, idFor.
  destruct (filter (λ r, db.host r = h ∧ db.game r = g) tbl) as [|r rest] eqn:Hf.
  - left. split; [done|]. split; [|done].
    rewrite Exists_exists. intros (r & Hin & Hr).
    assert (Hr' : r ∈ filter (λ r, db.host r = h ∧ db.game r = g) tbl)
      by (by apply list_elem_of_filter).
    rewrite Hf in Hr'. by apply elem_of_nil in Hr'.
  - right. exists r.
    assert (Hr : r ∈ filter (λ r, db.host r = h ∧ db.game r = g) tbl)
      by (rewrite Hf; by left).
    by apply list_elem_of_filter in Hr as [[Hh Hg] Hin].
Qed.

Lemma stored_elem tbl h g :
  stored tbl h g ↔ ∃ r, r ∈ tbl ∧ db.host r = h ∧ db.game r = g.
Proof.
  unfold stored. by rewrite Exists_exists.
Qed.

(** X17. When the query and the scan do not fail, [serverExists] says
    whether the table has a row for the host and the game, except that it
    says no whenever the host or the game is the empty string, even when
    such a row is stored. *)
Theorem serverExists_answer tbl h g :
  readsOk eng →
  db.serverExists eng tbl h g
  = Ok (bool_decide (h ≠ "" ∧ g ≠ "" ∧ stored tbl h g)).
Proof.
  intros [Hq Hs]. unfold db.serverExists. rewrite Hq.
  destruct (whereHostGame_cases tbl h g)
    as [(-> & Hno & _)|(r & -> & Hin & Hh & Hg & _)]; simpl.
  - rewrite bool_decide_eq_false_2; [done|]. by intros (_ & _ & ?).
  - rewrite Hs, Hh, Hg.
    assert (Hst : stored tbl h g) by (apply stored_elem; by exists r).
    destruct (decide (h ≠ "" ∧ g ≠ "")) as [Hne|Hne].
    + rewrite !bool_decide_eq_true_2; [done| |done]. by destruct Hne.
    + rewrite bool_decide_eq_false_2 by done.
      rewrite bool_decide_eq_false_2; [done|]. intros (? & ? & _). by apply Hne.
Qed.

Lemma toInsert_fold tbl : ∀ (l : list (string * string)) acc,
  NoDup l.*1 →
  ∀ h, foldl (db.toInsertStep eng tbl) acc l !! h =
       match (list_to_map l : gmap string string) !! h with
       | Some g => if insertable eng tbl h g then Some g else acc !! h
       | None => acc !! h
       end.
Proof.
  induction l as [|[h0 g0] l IH]; intros acc Hnd h; [done|].
  rewrite fmap_cons in Hnd. apply NoDup_cons in Hnd as [Hnotin Hnd].
  change (foldl (db.toInsertStep eng tbl) acc ((h0, g0) :: l))
    with (foldl (db.toInsertStep eng tbl) (db.toInsertStep eng tbl acc (h0, g0)) l).
  rewrite IH, list_to_map_cons by done.
  assert (Hstep : db.toInsertStep eng tbl acc (h0, g0) =
                  if insertable eng tbl h0 g0 then <[h0 := g0]> acc else acc).
  { unfold db.toInsertStep, insertable.
    destruct (String.eqb g0 (db.GameUnspecified eng)); [done|]. simpl.
    by destruct (db.serverExists eng tbl h0 g0) as [[]|]. }
  rewrite Hstep. destruct (decide (h = h0)) as [->|Hne].
  - rewrite lookup_insert_eq.
    rewrite (not_elem_of_list_to_map_1 l h0) by done.
    destruct (insertable eng tbl h0 g0); [by rewrite lookup_insert_eq|done].
  - rewrite lookup_insert_ne by done.
    destruct (list_to_map l !! h); [|
      destruct (insertable eng tbl h0 g0); by rewrite ?lookup_insert_ne].
    destruct (insertable eng tbl h s); [done|].
    destruct (insertable eng tbl h0 g0); by rewrite ?lookup_insert_ne.
Qed.

Lemma NoDup_fst_Range (m : gmap string string) :
  rangesMaps eng → NoDup (db.Range eng m).*1 ∧ list_to_map (db.Range eng m) = m.
Proof.
  intros Hr. split.
  - rewrite (Hr m). apply NoDup_fst_map_to_list.
  - rewrite <- (list_to_map_to_list m) at 2.
    apply list_to_map_proper; [|apply Hr].
    rewrite (Hr m). apply NoDup_fst_map_to_list.
Qed.

Lemma toInsertOf_filter tbl hg :
  rangesMaps eng →
  db.toInsertOf eng tbl hg
  = filter (λ kv, insertable eng tbl kv.1 kv.2 = true) hg.
Proof.
  intros Hr. destruct (NoDup_fst_Range hg Hr) as [Hnd Hmap].
  apply map_eq. intros h. unfold db.toInsertOf.
  rewrite toInsert_fold, Hmap, lookup_empty by done.
  destruct (hg !! h) as [g|] eqn:Hh.
  - destruct (insertable eng tbl h g) eqn:Hins.
    + symmetry. by apply map_lookup_filter_Some.
    + symmetry. apply map_lookup_filter_None. right. intros g' Hg'. simpl.
      rewrite Hh in Hg'. injection Hg' as <-. by rewrite Hins.
  - symmetry. apply map_lookup_filter_None. by left.
Qed.

Lemma execInserts_spec : ∀ l tx,
  ∃ added,
    (db.execInserts eng l tx).1 = tx ++ added ∧
    ((db.execInserts eng l tx).2 = None →
     (λ r, (db.host r, db.game r)) <$> added = l).
Proof.
  induction l as [|[h g] l IH]; intros tx.
  - exists []. simpl. by rewrite app_nil_r.
  - simpl. destruct (db.ExecErr eng h g).
    + exists []. simpl. by rewrite app_nil_r.
    + destruct (IH (tx ++ [db.mkRow (db.NextID eng tx) h g]))
        as (added & Htx & Hl).
      exists (db.mkRow (db.NextID eng tx) h g :: added).
      rewrite Htx, <- app_assoc. split; [done|].
      intros Hnone. rewrite fmap_cons. cbn [db.host db.game].
      by rewrite (Hl Hnone).
Qed.

Lemma execInserts_ok l tx :
  (∀ h g, db.ExecErr eng h g = None) → (db.execInserts eng l tx).2 = None.
Proof.
  intros Hok. revert tx. induction l as [|[h g] l IH]; intros tx; [done|].
  simpl. by rewrite Hok.
Qed.

(** What [AddServersToDB] leaves: the old rows, then nothing or all. *)
Lemma AddServersToDB_result tbl hg :
  rangesMaps eng →
  ∃ added,
    db.AddServersToDB eng tbl hg = tbl ++ added ∧
    (added = [] ∨
     (λ r, (db.host r, db.game r)) <$> added
     ≡ₚ map_to_list (filter (λ kv, insertable eng tbl kv.1 kv.2 = true) hg)) ∧
    (writesOk eng →
     (λ r, (db.host r, db.game r)) <$> added
     ≡ₚ map_to_list (filter (λ kv, insertable eng tbl kv.1 kv.2 = true) hg)).
Proof.
  intros Hr. unfold db.AddServersToDB, writesOk.
  rewrite toInsertOf_filter by done.
  set (wanted := filter (λ kv, insertable eng tbl kv.1 kv.2 = true) hg).
  destruct (execInserts_spec (db.Range eng wanted) tbl) as (added & Htx & Hl).
  pose proof (execInserts_ok (db.Range eng wanted) tbl) as Hok.
  destruct (db.execInserts eng (db.Range eng wanted) tbl) as [tx e].
  simpl in *. subst tx.
  assert (Hfull : e = None →
            (λ r, (db.host r, db.game r)) <$> added ≡ₚ map_to_list wanted)
    by (intros He; rewrite (Hl He); apply Hr).
  assert (Hnil : ∃ added0 : list db.row,
            tbl = tbl ++ added0 ∧
            (added0 = [] ∨
             (λ r, (db.host r, db.game r)) <$> added0 ≡ₚ map_to_list wanted))
    by (exists []; rewrite app_nil_r; auto).
  destruct (db.BeginErr eng) eqn:Hb.
  { exists []. rewrite app_nil_r. split; [done|]. split; [by left|].
    by intros [? _]. }
  destruct e as [err|].
  { exists []. rewrite app_nil_r.
    split; [by destruct (db.RollbackErr eng)|]. split; [by left|].
    intros (_ & Hexec & _). by specialize (Hok Hexec). }
  destruct (db.CommitErr eng) eqn:Hc.
  { exists []. rewrite app_nil_r. split; [done|]. split; [by left|].
    by intros (_ & _ & ?). }
  exists added. split; [done|]. split; [right|intros _]; by apply Hfull.
Qed.

(** X18. [AddServersToDB] never removes or changes a row: the table it
    leaves is the old table followed by the new rows, and the new rows
    are all or nothing: either none, or exactly one row for each requested
    entry that the first loop kept (its game is not the unspecified one and
    [serverExists] answered no without error). *)
Theorem AddServersToDB_all_or_nothing tbl hg :
  rangesMaps eng →
  ∃ added,
    db.AddServersToDB eng tbl hg = tbl ++ added ∧
    (added = [] ∨
     (λ r, (db.host r, db.game r)) <$> added
     ≡ₚ map_to_list (filter (λ kv, insertable eng tbl kv.1 kv.2 = true) hg)).
Proof.
  intros Hr. destruct (AddServersToDB_result tbl hg Hr) as (added & ? & ? & _).
  by exists added.
Qed.

Lemma insertable_answer tbl h g :
  readsOk eng →
  insertable eng tbl h g =
  negb (String.eqb g (db.GameUnspecified eng)) &&
  negb (bool_decide (h ≠ "" ∧ g ≠ "" ∧ stored tbl h g)).
Proof.
  intros Hreads. unfold insertable. rewrite serverExists_answer by done.
  by destruct (bool_decide _).
Qed.

Lemma AddServersToDB_stores tbl hg h g :
  readsOk eng → writesOk eng → rangesMaps eng →
  hg !! h = Some g → g ≠ db.GameUnspecified eng → h ≠ "" → g ≠ "" →
  stored (db.AddServersToDB eng tbl hg) h g.
Proof.
  intros Hreads Hwrites Hr Hh Hg Hhe Hge.
  destruct (AddServersToDB_result tbl hg Hr) as (added & -> & _ & Hfull).
  specialize (Hfull Hwrites). unfold stored. apply Exists_app.
  destruct (decide (stored tbl h g)) as [Hst|Hst]; [by left|right].
  assert (Hins : insertable eng tbl h g = true).
  { rewrite insertable_answer by done.
    apply String.eqb_neq in Hg. rewrite Hg. simpl.
    rewrite bool_decide_eq_false_2; [done|]. by intros (_ & _ & ?). }
  assert (Hin : (h, g) ∈ (λ r, (db.host r, db.game r)) <$> added).
  { rewrite Hfull. apply elem_of_map_to_list. by apply map_lookup_filter_Some. }
  apply list_elem_of_fmap in Hin as (r & [= -> ->] & Hin).
  apply Exists_exists. by exists r.
Qed.

(** X19. When no call to the driver fails: after [AddServersToDB] the
    table has a row for every requested host and game, unless the game is
    the unspecified one or one of the two strings is empty; and when
    every requested host and game is non-empty, a second call with the
    same request leaves the table as the first call left it. *)
Theorem AddServersToDB_complete_and_idempotent tbl hg :
  readsOk eng → writesOk eng → rangesMaps eng →
  (∀ h g, hg !! h = Some g → g ≠ db.GameUnspecified eng → h ≠ "" → g ≠ "" →
          stored (db.AddServersToDB eng tbl hg) h g) ∧
  ((∀ h g, hg !! h = Some g → h ≠ "" ∧ g ≠ "") →
   db.AddServersToDB eng (db.AddServersToDB eng tbl hg) hg
   = db.AddServersToDB eng tbl hg).
Proof.
  intros Hreads Hwrites Hr. split.
  - intros h g. by apply AddServersToDB_stores.
  - intros Hne. set (tbl' := db.AddServersToDB eng tbl hg).
    destruct (AddServersToDB_result tbl' hg Hr) as (added & -> & _ & Hfull).
    specialize (Hfull Hwrites).
    assert (Hempty : filter (λ kv, insertable eng tbl' kv.1 kv.2 = true) hg = ∅).
    { apply map_empty. intros h. apply map_lookup_filter_None.
      destruct (hg !! h) as [g|] eqn:Hh; [right|by left].
      intros g' [= <-]. simpl. rewrite insertable_answer by done.
      destruct (String.eqb g (db.GameUnspecified eng)) eqn:Hg; [done|]. simpl.
      apply String.eqb_neq in Hg. destruct (Hne h g Hh) as [Hhe Hge].
      rewrite bool_decide_eq_true_2; [done|].
      repeat split; try done. by apply AddServersToDB_stores. }
    rewrite Hempty, map_to_list_empty in Hfull.
    apply Permutation_nil_r in Hfull. apply fmap_nil_inv in Hfull as ->.
    by rewrite app_nil_r.
Qed.

(** X20. An entry whose host is the empty string is never found by
    [serverExists], so it is inserted again by every call: when no call to
    the driver fails, [AddServersToDB] with the single entry of an empty
    host and a game other than the unspecified one appends a row for it,
    whether or not the table already has such a row. *)
Theorem AddServersToDB_empty_host_duplicated tbl g :
  readsOk eng → writesOk eng → rangesMaps eng →
  g ≠ db.GameUnspecified eng →
  db.AddServersToDB eng tbl {[ "" := g ]}
  = tbl ++ [db.mkRow (db.NextID eng tbl) "" g].
Proof.
  intros Hreads Hwrites Hr Hg.
  destruct Hwrites as (Hb & Hexec & Hc).
  unfold db.AddServersToDB. rewrite toInsertOf_filter, Hb by done.
  assert (Hins : insertable eng tbl "" g = true).
  { rewrite insertable_answer by done.
    apply String.eqb_neq in Hg. rewrite Hg. cbn [negb andb].
    rewrite bool_decide_eq_false_2; [done|]. by intros ([] & _). }
  rewrite map_filter_singleton_True by done.
  pose proof (Hr {[ "" := g ]}) as Hperm. rewrite map_to_list_singleton in Hperm.
  apply Permutation_singleton_r in Hperm. rewrite Hperm. simpl.
  by rewrite Hexec, Hc.
Qed.

Lemma scan_id tbl h g :
  (∀ r, db.ScanErr eng r = None) →
  db.scanRows eng db.server_id (db.whereHostGame tbl h g) 0%Z
  = Ok (idFor tbl h g).
Proof.
  intros Hs.
  destruct (whereHostGame_cases tbl h g)
    as [(-> & _ & ->)|(r & -> & _ & _ & _ & ->)]; simpl; [done|].
  by rewrite Hs.
Qed.

Lemma idsLoop_ok tbl : ∀ (l : list (string * string)) m,
  readsOk eng → NoDup l.*1 →
  ∃ m', db.idsLoop eng tbl l m = Some m' ∧
        ∀ h, m' !! h = match (list_to_map l : gmap string string) !! h with
                       | Some g => Some (idFor tbl h g)
                       | None => m !! h
                       end.
Proof.
  induction l as [|[h0 g0] l IH]; intros m Hreads Hnd.
  - by exists m.
  - rewrite fmap_cons in Hnd. apply NoDup_cons in Hnd as [Hnotin Hnd].
    destruct Hreads as [Hq Hs]. cbn [db.idsLoop].
    rewrite Hq, scan_id by done.
    destruct (IH (<[h0 := idFor tbl h0 g0]> m) (conj Hq Hs) Hnd)
      as (m' & Hrun & Hm').
    exists m'. split; [done|]. intros h. rewrite Hm', list_to_map_cons.
    destruct (decide (h = h0)) as [->|Hne].
    + rewrite (not_elem_of_list_to_map_1 l h0) by done.
      by rewrite !lookup_insert_eq.
    + by rewrite !lookup_insert_ne.
Qed.

Lemma idsLoop_fault tbl h g err : ∀ (l : list (string * string)) m,
  (h, g) ∈ l →
  db.QueryErr eng
    "SELECT server_id FROM servers WHERE host =? AND game =? LIMIT 1" [h; g]
    = Some err →
  db.idsLoop eng tbl l m = None.
Proof.
  induction l as [|[h0 g0] l IH]; intros m Hin Hq.
  - by apply elem_of_nil in Hin.
  - cbn [db.idsLoop]. apply elem_of_cons in Hin as [[= <- <-]|Hin].
    + by rewrite Hq.
    + destruct (db.QueryErr eng _ [h0; g0]); [done|].
      destruct (db.scanRows eng db.server_id _ 0%Z); [|done]. by apply IH.
Qed.

(** X21. Whatever the order in which Go ranges over the request:
    when no query and no scan fails, [GetIDsForServerList] sends a map
    whose keys are exactly the requested hosts, each with the id of the
    first row stored for it and its game, or 0 when no row is; and when
    the query of one requested entry fails, nothing is sent at all. *)
Theorem GetIDsForServerList_reply tbl hosts :
  rangesMaps eng →
  (readsOk eng →
   ∃ m, db.GetIDsForServerList eng tbl hosts = Some m ∧
        ∀ h, m !! h = idFor tbl h <$> hosts !! h) ∧
  (∀ h g err,
     hosts !! h = Some g →
     db.QueryErr eng
       "SELECT server_id FROM servers WHERE host =? AND game =? LIMIT 1" [h; g]
       = Some err →
     db.GetIDsForServerList eng tbl hosts = None).
Proof.
  intros Hr. destruct (NoDup_fst_Range hosts Hr) as [Hnd Hmap].
  unfold db.GetIDsForServerList. split.
  - intros Hreads.
    destruct (idsLoop_ok tbl (db.Range eng hosts) ∅ Hreads Hnd) as (m & Hrun & Hm).
    exists m. split; [done|]. intros h. rewrite Hm, Hmap, lookup_empty.
    by destruct (hosts !! h).
  - intros h g err Hh Hq. eapply idsLoop_fault; [|exact Hq].
    rewrite (Hr hosts). by apply elem_of_map_to_list.
Qed.

(** X22. Insert, then look up: when no call to the driver fails, the ids
    asked for a request just handed to [AddServersToDB] are sent, and each
    requested host whose game is not the unspecified one, host and game
    being non-empty, comes back with the id of a row that is stored for
    that host and game. *)
Theorem ids_after_AddServersToDB tbl hg :
  readsOk eng → writesOk eng → rangesMaps eng →
  ∃ m,
    db.GetIDsForServerList eng (db.AddServersToDB eng tbl hg) hg = Some m ∧
    ∀ h g, hg !! h = Some g → g ≠ db.GameUnspecified eng → h ≠ "" → g ≠ "" →
      ∃ r, r ∈ db.AddServersToDB eng tbl hg ∧
           db.host r = h ∧ db.game r = g ∧ m !! h = Some (db.server_id r).
Proof.
  intros Hreads Hwrites Hr.
  set (tbl' := db.AddServersToDB eng tbl hg).
  destruct (NoDup_fst_Range hg Hr) as [Hnd Hmap].
  destruct (idsLoop_ok tbl' (db.Range eng hg) ∅ Hreads Hnd) as (m & Hrun & Hm).
  exists m. split; [done|]. intros h g Hh Hg Hhe Hge.
  pose proof (AddServersToDB_stores tbl hg h g Hreads Hwrites Hr Hh Hg Hhe Hge)
    as Hst. fold tbl' in Hst.
  destruct (whereHostGame_cases tbl' h g)
    as [(_ & Hno & _)|(r & _ & Hin & Hrh & Hrg & Hid)]; [done|].
  exists r. repeat split; try done.
  by rewrite Hm, Hmap, Hh, Hid.
Qed.

Lemma whereID_cases tbl id :
  db.whereID eng tbl id = [] ∨
  ∃ r, db.whereID eng tbl id = [r] ∧ r ∈ tbl ∧
       db.IdOfText eng id = Some (db.server_id r).
Proof.
  unfold db.whereID.
  destruct (filter (λ r, db.IdOfText eng id = Some (db.server_id r)) tbl)
    as [|r rest] eqn:Hf; [by left|right].
  exists r.
  assert (Hr : r ∈ filter (λ r, db.IdOfText eng id = Some (db.server_id r)) tbl)
    by (rewrite Hf; by left).
  by apply list_elem_of_filter in Hr as [Hid Hin].
Qed.

Lemma getHostAndGame_ok tbl id :
  readsOk eng →
  db.getHostAndGame eng tbl id =
  Ok (match db.whereID eng tbl id with
      | r :: _ => (db.host r, db.game r)
      | [] => ("", "")
      end).
Proof.
  intros [Hq Hs]. unfold db.getHostAndGame. rewrite Hq.
  destruct (whereID_cases tbl id) as [->|(r & -> & _)]; simpl; [done|].
  by rewrite Hs.
Qed.

Lemma hostsLoop_ok tbl : ∀ ids m0,
  readsOk eng →
  ∃ m, db.hostsLoop eng tbl ids m0 = Some m ∧
       (∀ h g, m !! h = Some g →
               m0 !! h = Some g ∨
               ∃ id r, id ∈ ids ∧ r ∈ tbl ∧
                       db.IdOfText eng id = Some (db.server_id r) ∧
                       db.host r = h ∧ db.game r = g) ∧
       (∀ h, is_Some (m0 !! h) → is_Some (m !! h)) ∧
       (∀ id r, id ∈ ids → db.whereID eng tbl id = [r] →
                ¬ (db.host r = "" ∧ db.game r = "") →
                is_Some (m !! db.host r)).
Proof.
  induction ids as [|id ids IH]; intros m0 Hreads.
  - exists m0. split; [done|]. split; [auto|]. split; [auto|].
    intros id r Hin. by apply elem_of_nil in Hin.
  - cbn [db.hostsLoop]. rewrite getHostAndGame_ok by done.
    destruct (whereID_cases tbl id) as [Hw|(r & Hw & Hin & Hid)]; rewrite Hw.
    + rewrite bool_decide_eq_true_2 by done.
      destruct (IH m0 Hreads) as (m & Hrun & Hsound & Hkeep & Hcompl).
      exists m. split; [done|]. split; [|split; [done|]].
      * intros h g Hm. destruct (Hsound h g Hm) as [?|(id' & r & ? & ?)];
          [by left|right]. exists id', r. split; [by right|done].
      * intros id' r [->|Hin']%elem_of_cons Hw' Hne; [congruence|].
        by eapply Hcompl.
    + destruct (decide (db.host r = "" ∧ db.game r = "")) as [Hemp|Hemp].
      * rewrite bool_decide_eq_true_2 by done.
        destruct (IH m0 Hreads) as (m & Hrun & Hsound & Hkeep & Hcompl).
        exists m. split; [done|]. split; [|split; [done|]].
        -- intros h g Hm. destruct (Hsound h g Hm) as [?|(id' & r' & ? & ?)];
             [by left|right]. exists id', r'. split; [by right|done].
        -- intros id' r' [->|Hin']%elem_of_cons Hw' Hne.
           ++ rewrite Hw in Hw'. injection Hw' as <-. done.
           ++ by eapply Hcompl.
      * rewrite bool_decide_eq_false_2 by done.
        destruct (IH (<[db.host r := db.game r]> m0) Hreads)
          as (m & Hrun & Hsound & Hkeep & Hcompl).
        exists m. split; [done|]. split; [|split].
        -- intros h g Hm. destruct (Hsound h g Hm) as [Hm0|(id' & r' & ? & ?)].
           ++ destruct (decide (h = db.host r)) as [->|Hne].
              ** rewrite lookup_insert_eq in Hm0. injection Hm0 as <-.
                 right. exists id, r. repeat split; try done. by left.
              ** rewrite lookup_insert_ne in Hm0 by done. by left.
           ++ right. exists id', r'. split; [by right|done].
        -- intros h Hh. apply Hkeep.
           destruct (decide (h = db.host r)) as [->|Hne];
             [rewrite lookup_insert_eq; by eexists|by rewrite lookup_insert_ne].
        -- intros id' r' [->|Hin']%elem_of_cons Hw' Hne.
           ++ rewrite Hw in Hw'. injection Hw' as <-.
              apply Hkeep. rewrite lookup_insert_eq. by eexists.
           ++ by eapply Hcompl.
Qed.

(** X23. When no query and no scan fails, [GetHostsAndGameFromIDAPIQuery]
    sends a map in which every host and game come from a row whose id
    one of the requested ids denotes, and in which the host of the row of
    every requested id is a key; an id without a row is passed over
    without an error, and so is the id of a row whose host and game are
    both empty. *)
Theorem GetHostsAndGame_reply tbl ids :
  readsOk eng →
  ∃ m,
    db.GetHostsAndGameFromIDAPIQuery eng tbl ids = Some m ∧
    (∀ h g, m !! h = Some g →
            ∃ id r, id ∈ ids ∧ r ∈ tbl ∧
                    db.IdOfText eng id = Some (db.server_id r) ∧
                    db.host r = h ∧ db.game r = g) ∧
    (∀ id r, id ∈ ids → db.whereID eng tbl id = [r] →
             ¬ (db.host r = "" ∧ db.game r = "") →
             is_Some (m !! db.host r)).
Proof.
  intros Hreads. unfold db.GetHostsAndGameFromIDAPIQuery.
  destruct (hostsLoop_ok tbl ids ∅ Hreads) as (m & Hrun & Hsound & _ & Hcompl).
  exists m. split; [done|]. split; [|done].
  intros h g Hm. destruct (Hsound h g Hm) as [Hm0|?]; [|done].
  by rewrite lookup_empty in Hm0.
Qed.

Lemma appendRows_ok : ∀ rows servers,
  (∀ r, db.ScanErr eng r = None) →
  db.appendRows eng rows servers =
  Some (match rows with
        | [] => servers
        | _ => Some (elems servers ++
                     ((λ r, db.mkDbServer (db.server_id r) (db.host r) (db.game r))
                        <$> rows))
        end).
Proof.
  induction rows as [|r rows IH]; intros servers Hs; [done|].
  cbn [db.appendRows]. rewrite Hs, IH by done.
  destruct rows; simpl; [done|]. by rewrite <- app_assoc.
Qed.

Lemma apiQueryLoop_ok tbl : ∀ hosts servers,
  readsOk eng →
  db.apiQueryLoop eng tbl hosts servers =
  Some (match hosts ≫= (λ h, db.whereHostLike eng tbl ("%" +:+ h +:+ "%")) with
        | [] => servers
        | rows =>
            Some (elems servers ++
                  ((λ r, db.mkDbServer (db.server_id r) (db.host r) (db.game r))
                     <$> rows))
        end).
Proof.
  induction hosts as [|h hosts IH]; intros servers Hreads; [done|].
  destruct Hreads as [Hq Hs]. cbn [db.apiQueryLoop]. rewrite Hq.
  rewrite appendRows_ok by done. rewrite bind_cons.
  set (rows := db.whereHostLike eng tbl ("%" +:+ h +:+ "%")).
  rewrite IH by done.
  set (rest := hosts ≫= _).
  destruct rows as [|r rows]; [done|].
  destruct rest as [|r' rest]; simpl.
  - by rewrite app_nil_r.
  - rewrite fmap_app, <- app_assoc. simpl. done.
Qed.

(** X24. When no query and no scan fails, [GetIDsAPIQuery] sends a list
    whose count is its length and which holds, for each requested host in
    request order, the rows whose host matches the pattern made of that
    host between two percent signs, in table order; so a row is listed
    once for every requested host it matches, and the list is the nil
    slice when nothing matches. *)
Theorem GetIDsAPIQuery_reply tbl hosts :
  readsOk eng →
  ∃ d,
    db.GetIDsAPIQuery eng tbl hosts = Some d ∧
    db.ServerCount d = len (db.Servers d) ∧
    db.Servers d =
      appended
        ((λ r, db.mkDbServer (db.server_id r) (db.host r) (db.game r)) <$>
         (hosts ≫= (λ h, db.whereHostLike eng tbl ("%" +:+ h +:+ "%")))).
Proof.
  intros Hreads. unfold db.GetIDsAPIQuery.
  rewrite apiQueryLoop_ok by done.
  eexists. split; [done|]. split; [done|]. simpl.
  by destruct (hosts ≫= _).
Qed.

End db_props.

(** ** The further properties on the sample runs *)

Lemma sampleEngine_readsOk : readsOk sampleEngine.
Proof. split; intros; reflexivity. Qed.

Lemma sampleEngine_writesOk : writesOk sampleEngine.
Proof. repeat split; intros; reflexivity. Qed.

Lemma sampleEngine_rangesMaps : rangesMaps sampleEngine.
Proof. intros m. reflexivity. Qed.

Lemma info_fanout_every_error_retried_sample :
  ∃ log m failed,
    infoFanOut sampleEnv (reverse sampleHosts) = (log, Returned (m, failed)) ∧
    ∀ host info err,
      host ∈ sampleHosts →
      GetInfoForServer sampleEnv host (QueryTimeout sampleEnv) = (info, err) →
      (err = None → m !! host = Some info ∧ host ∉ elems failed) ∧
      (∀ e, err = Some e → host ∈ elems failed ∧ m !! host = None).
Proof.
  apply (info_fanout_every_error_retried sampleEnv sampleHosts (reverse sampleHosts)).
  apply reverse_Permutation.
Defined.

Lemma assembler_effects_in_order_sample :
  ∃ log sl,
    buildServerList sampleEnv noIgnore sampleHosts sampleInfoMap sampleRuleMap
      samplePlayerMap = (log, Returned (Ok sl)) ∧
    log = [EvOpenCountryDB; EvOpenServerDB] ++
          omap (countryEvent)
            (filter (λ h, succeeds noIgnore sampleInfoMap sampleRuleMap
                            samplePlayerMap h = true) sampleHosts) ++
          [EvAddServersToDB
             (appended
                (omap (derivedAddress sampleInfoMap)
                   (filter (λ h, succeeds noIgnore sampleInfoMap sampleRuleMap
                                   samplePlayerMap h = true) sampleHosts)));
           EvGetIDsForServerList
             (appended (server.Host <$> elems (serverList.Servers sl)));
           EvCloseCountryDB].
Proof.
  eexists _, _.
  eassert (Hrun : buildServerList sampleEnv noIgnore sampleHosts sampleInfoMap
                    sampleRuleMap samplePlayerMap = (_, Returned (Ok _)))
    by (vm_compute; reflexivity).
  split; [exact Hrun|].
  exact (assembler_effects_in_order sampleEnv noIgnore sampleInfoMap sampleRuleMap
           samplePlayerMap sampleHosts _ _ Hrun).
Defined.

Lemma serialised_lists_and_null_sample :
  ∃ log sl,
    buildServerList sampleEnv noIgnore sampleHosts sampleInfoMap sampleRuleMap
      samplePlayerMap = (log, Returned (Ok sl)) ∧
    member "servers" (MarshalServerList sampleEnv sl)
      = Some (JArray (MarshalServer sampleEnv <$> elems (serverList.Servers sl))) ∧
    Forall (λ s, ∃ items,
              member "players" (MarshalServer sampleEnv s) = Some (JArray items))
      (elems (serverList.Servers sl)).
Proof.
  eexists _, _.
  eassert (Hrun : buildServerList sampleEnv noIgnore sampleHosts sampleInfoMap
                    sampleRuleMap samplePlayerMap = (_, Returned (Ok _)))
    by (vm_compute; reflexivity).
  split; [exact Hrun|].
  destruct (serialised_lists_and_null sampleEnv noIgnore sampleInfoMap
              sampleRuleMap samplePlayerMap sampleHosts _ _ Hrun) as (H1 & H2 & _).
  split; [exact H1 | exact H2].
Defined.

Lemma ids_follow_listed_address_sample :
  ∃ log sl,
    buildServerList sampleEnv noIgnore sampleHosts sampleInfoMap sampleRuleMap
      samplePlayerMap = (log, Returned (Ok sl)) ∧
    ∃ ids,
      GetIDsForServerList sampleEnv
        (appended (server.Host <$> elems (serverList.Servers sl))) = Some ids ∧
      Forall (λ s, server.ID s = default 0%Z (ids !! server.Host s))
        (elems (serverList.Servers sl)).
Proof.
  eexists _, _.
  eassert (Hrun : buildServerList sampleEnv noIgnore sampleHosts sampleInfoMap
                    sampleRuleMap samplePlayerMap = (_, Returned (Ok _)))
    by (vm_compute; reflexivity).
  split; [exact Hrun|].
  exact (ids_follow_listed_address sampleEnv noIgnore sampleInfoMap sampleRuleMap
           samplePlayerMap sampleHosts _ _ Hrun).
Defined.

Lemma endpoint_fields_sample :
  ∃ log sl,
    buildServerList sampleEnv noIgnore sampleHosts sampleInfoMap sampleRuleMap
      samplePlayerMap = (log, Returned (Ok sl)) ∧
    Forall2
      (λ host s,
         match SplitHostPort host with
         | Ok (ip, port) =>
             server.IP s = ip ∧
             server.Port s = match Atoi port with Ok p => p | Err _ => 0%Z end ∧
             GetCountryInfo sampleEnv ip = Some (server.CountryInfo s)
         | Err _ =>
             server.Host s = "" ∧ server.IP s = "" ∧ server.Port s = 0%Z ∧
             server.CountryInfo s = None
         end)
      (filter (λ h, succeeds noIgnore sampleInfoMap sampleRuleMap
                      samplePlayerMap h = true) sampleHosts)
      (elems (serverList.Servers sl)).
Proof.
  eexists _, _.
  eassert (Hrun : buildServerList sampleEnv noIgnore sampleHosts sampleInfoMap
                    sampleRuleMap samplePlayerMap = (_, Returned (Ok _)))
    by (vm_compute; reflexivity).
  split; [exact Hrun|].
  exact (endpoint_fields sampleEnv noIgnore sampleInfoMap sampleRuleMap
           samplePlayerMap sampleHosts _ _ Hrun).
Defined.

(** The country database, then the server database, failing to open. *)
Lemma database_open_failures_sample :
  buildServerList countryDownEnv noIgnore sampleHosts sampleInfoMap
    sampleRuleMap samplePlayerMap
  = ([EvOpenCountryDB],
     Returned (Err (LogAppError
                      (Foreign "open GeoLite2-City.mmdb: no such file")))) ∧
  buildServerList serverDownEnv noIgnore sampleHosts sampleInfoMap
    sampleRuleMap samplePlayerMap
  = ([EvOpenCountryDB; EvOpenServerDB; EvCloseCountryDB],
     Returned (Err (LogAppError (Foreign "unable to open database file")))).
Proof.
  split.
  - apply (database_open_failures countryDownEnv noIgnore sampleInfoMap
             sampleRuleMap samplePlayerMap sampleHosts
             (Foreign "open GeoLite2-City.mmdb: no such file"));
      [reflexivity|left; reflexivity].
  - apply (database_open_failures serverDownEnv noIgnore sampleInfoMap
             sampleRuleMap samplePlayerMap sampleHosts
             (Foreign "unable to open database file"));
      [reflexivity|right; split; reflexivity].
Defined.

Lemma country_db_closed_on_exit_sample :
  last (events (buildServerList sampleEnv ignoreInfoOnly [hostA] ∅
                  sampleRuleMap samplePlayerMap)) = Some EvCloseCountryDB.
Proof.
  apply (country_db_closed_on_exit sampleEnv ignoreInfoOnly ∅ sampleRuleMap
           samplePlayerMap [hostA] eq_refl eq_refl).
  vm_compute. discriminate.
Defined.

Lemma rules_of_entries_sample :
  ∃ log sl,
    buildServerList sampleEnv noIgnore sampleHosts sampleInfoMap sampleRuleMap
      samplePlayerMap = (log, Returned (Ok sl)) ∧
    Forall2
      (λ host s,
         if HasIgnoreRules noIgnore then
           server.Rules s = Some ∅ ∧
           member "rules" (MarshalServer sampleEnv s) = Some (JStringMap ∅)
         else
           server.Rules s = default None (sampleRuleMap !! host) ∧
           (sampleRuleMap !! host = Some None →
              member "rules" (MarshalServer sampleEnv s) = Some JNull))
      (filter (λ h, succeeds noIgnore sampleInfoMap sampleRuleMap
                      samplePlayerMap h = true) sampleHosts)
      (elems (serverList.Servers sl)).
Proof.
  eexists _, _.
  eassert (Hrun : buildServerList sampleEnv noIgnore sampleHosts sampleInfoMap
                    sampleRuleMap samplePlayerMap = (_, Returned (Ok _)))
    by (vm_compute; reflexivity).
  split; [exact Hrun|].
  exact (rules_of_entries sampleEnv noIgnore sampleInfoMap sampleRuleMap
           samplePlayerMap sampleHosts _ _ Hrun).
Defined.

Lemma skipped_kind_never_queried_sample :
  Forall (λ ev, eventKind ev ≠ Some infoRequest)
    (events (retrieve sampleEnv ignoreInfoOnly)).
Proof.
  exact (skipped_kind_never_queried sampleEnv ignoreInfoOnly infoRequest eq_refl).
Defined.

Lemma retrieval_in_phases_sample :
  ∃ fp fr fi rest,
    events (retrieve sampleEnv noIgnore) =
      EvMasterQuery ::
      phase sampleEnv noIgnore sampleHosts playerRequest fp
        (QueryRetryCount sampleEnv) ++
      phase sampleEnv noIgnore sampleHosts ruleRequest fr
        (QueryRetryCount sampleEnv) ++
      phase sampleEnv noIgnore sampleHosts infoRequest fi 3 ++ rest ∧
    Forall (λ ev, isNetwork ev = false) rest.
Proof.
  exact (retrieval_in_phases sampleEnv noIgnore sampleHosts eq_refl eq_refl).
Defined.

Lemma snapshot_written_on_success_sample :
  ∃ servers players rules info log sl pre,
    NewMasterQuery sampleEnv noIgnore = Ok servers ∧
    (HasIgnorePlayers noIgnore = true → players = ∅) ∧
    (HasIgnoreRules noIgnore = true → rules = ∅) ∧
    (HasIgnoreInfo noIgnore = true → info = ∅) ∧
    buildServerList sampleEnv noIgnore servers info rules players
      = (log, Returned (Ok sl)) ∧
    events (retrieve sampleEnv noIgnore) =
      pre ++ [EvCreateFile "servers.json";
              EvWriteFile (MarshalServerList sampleEnv sl)] ∧
    Forall (λ ev, touchesFile ev = false) pre.
Proof.
  apply (snapshot_written_on_success sampleEnv noIgnore).
  vm_compute. reflexivity.
Defined.


Lemma serverExists_answer_sample :
  db.serverExists sampleEngine sampleTable "" "QuakeLive"
  = Ok (bool_decide ("" ≠ "" ∧ "QuakeLive" ≠ "" ∧ stored sampleTable "" "QuakeLive")).
Proof.
  apply (serverExists_answer sampleEngine sampleTable "" "QuakeLive").
  split; intros; reflexivity.
Defined.

Lemma AddServersToDB_all_or_nothing_sample :
  ∃ added,
    db.AddServersToDB sampleEngine sampleTable sampleHostsGames
      = sampleTable ++ added ∧
    (added = [] ∨
     (λ r, (db.host r, db.game r)) <$> added
     ≡ₚ map_to_list
          (filter (λ kv, insertable sampleEngine sampleTable kv.1 kv.2 = true)
             sampleHostsGames)).
Proof.
  apply (AddServersToDB_all_or_nothing sampleEngine sampleTable sampleHostsGames).
  intros m. reflexivity.
Defined.

Lemma AddServersToDB_complete_and_idempotent_sample :
  (∀ h g, sampleHostsGames !! h = Some g → g ≠ db.GameUnspecified sampleEngine →
          h ≠ "" → g ≠ "" →
          stored (db.AddServersToDB sampleEngine sampleTable sampleHostsGames) h g) ∧
  ((∀ h g, sampleHostsGames !! h = Some g → h ≠ "" ∧ g ≠ "") →
   db.AddServersToDB sampleEngine
     (db.AddServersToDB sampleEngine sampleTable sampleHostsGames) sampleHostsGames
   = db.AddServersToDB sampleEngine sampleTable sampleHostsGames).
Proof.
  apply (AddServersToDB_complete_and_idempotent sampleEngine sampleTable
           sampleHostsGames).
  - split; intros; reflexivity.
  - repeat split; intros; reflexivity.
  - intros m. reflexivity.
Defined.

Lemma AddServersToDB_empty_host_duplicated_sample :
  db.AddServersToDB sampleEngine sampleTable {[ "" := "QuakeLive" ]}
  = sampleTable ++ [db.mkRow (db.NextID sampleEngine sampleTable) "" "QuakeLive"].
Proof.
  apply (AddServersToDB_empty_host_duplicated sampleEngine sampleTable "QuakeLive").
  - split; intros; reflexivity.
  - repeat split; intros; reflexivity.
  - intros m. reflexivity.
  - discriminate.
Defined.

Lemma GetIDsForServerList_reply_sample :
  (readsOk sampleEngine →
   ∃ m, db.GetIDsForServerList sampleEngine sampleTable sampleHostsGames = Some m ∧
        ∀ h, m !! h = idFor sampleTable h <$> sampleHostsGames !! h) ∧
  (∀ h g err,
     sampleHostsGames !! h = Some g →
     db.QueryErr sampleEngine
       "SELECT server_id FROM servers WHERE host =? AND game =? LIMIT 1" [h; g]
       = Some err →
     db.GetIDsForServerList sampleEngine sampleTable sampleHostsGames = None).
Proof.
  apply (GetIDsForServerList_reply sampleEngine sampleTable sampleHostsGames).
  intros m. reflexivity.
Defined.

Lemma ids_after_AddServersToDB_sample :
  ∃ m,
    db.GetIDsForServerList sampleEngine
      (db.AddServersToDB sampleEngine sampleTable sampleHostsGames)
      sampleHostsGames = Some m ∧
    ∀ h g, sampleHostsGames !! h = Some g → g ≠ db.GameUnspecified sampleEngine →
      h ≠ "" → g ≠ "" →
      ∃ r, r ∈ db.AddServersToDB sampleEngine sampleTable sampleHostsGames ∧
           db.host r = h ∧ db.game r = g ∧ m !! h = Some (db.server_id r).
Proof.
  apply (ids_after_AddServersToDB sampleEngine sampleTable sampleHostsGames).
  - split; intros; reflexivity.
  - repeat split; intros; reflexivity.
  - intros m. reflexivity.
Defined.

Lemma GetHostsAndGame_reply_sample :
  ∃ m,
    db.GetHostsAndGameFromIDAPIQuery sampleEngine sampleTable ["1"; "2"] = Some m ∧
    (∀ h g, m !! h = Some g →
            ∃ id r, id ∈ ["1"; "2"] ∧ r ∈ sampleTable ∧
                    db.IdOfText sampleEngine id = Some (db.server_id r) ∧
                    db.host r = h ∧ db.game r = g) ∧
    (∀ id r, id ∈ ["1"; "2"] → db.whereID sampleEngine sampleTable id = [r] →
             ¬ (db.host r = "" ∧ db.game r = "") →
             is_Some (m !! db.host r)).
Proof.
  apply (GetHostsAndGame_reply sampleEngine sampleTable ["1"; "2"]).
  split; intros; reflexivity.
Defined.

Lemma GetIDsAPIQuery_reply_sample :
  ∃ d,
    db.GetIDsAPIQuery sampleEngine sampleTable ["10.0.0.1:27016"] = Some d ∧
    db.ServerCount d = len (db.Servers d) ∧
    db.Servers d =
      appended
        ((λ r, db.mkDbServer (db.server_id r) (db.host r) (db.game r)) <$>
         (["10.0.0.1:27016"] ≫=
            (λ h, db.whereHostLike sampleEngine sampleTable ("%" +:+ h +:+ "%")))).
Proof.
  apply (GetIDsAPIQuery_reply sampleEngine sampleTable ["10.0.0.1:27016"]).
  split; intros; reflexivity.
Defined.

(** ** When the assembler returns, and when it panics *)

Section assembler_outcome.
Context {Country : Type} (env : Env Country).
Variables (flt : Filter)
  (infomap : gmap string (option ServerInfo.t))
  (rulemap : gmap string (option (gmap string string)))
  (playermap : gmap string (slice PlayerInfo.t)).

Lemma entryFor_listed recorded host (s : server.t Country) :
  entryFor flt infomap rulemap playermap recorded host s →
  server.Host s = listedAddress infomap host ∧
  (∀ ip port, SplitHostPort host = Ok (ip, port) →
              is_Some (default None (infomap !! host))).
Proof.
  intros (_ & _ & _ & Hh). unfold listedAddress, derivedAddress.
  destruct (SplitHostPort host) as [[ip port]|]; [|by destruct Hh].
  destruct Hh as (_ & inf & Hinf & Hhost). rewrite Hinf. simpl in *.
  split; [|by eexists]. case_bool_decide; [by destruct Hhost|done].
Qed.

Lemma entryEndpoint_replied host (s : server.t Country) :
  entryEndpoint env host s →
  ∀ ip port, SplitHostPort host = Ok (ip, port) →
             is_Some (GetCountryInfo env ip).
Proof.
  unfold entryEndpoint. intros He ip port Hsplit. rewrite Hsplit in He.
  destruct He as (_ & _ & ->). by eexists.
Qed.

Lemma ending_defer {A} ev (m : M A) : ending (defer ev m) = ending m.
Proof. by destruct m as [l [a| |]]. Qed.

(** X25. [buildServerList] returns a list exactly when the filter does
    not skip all three kinds, both databases open, every successful host
    whose address splits has a non-nil info and gets a reply from the
    country lookup, and the id lookup replies for the listed addresses of
    the successful hosts; in every other case it returns an error, panics
    or blocks. *)
Theorem assembler_returns_iff servers :
  (∃ log sl, buildServerList env flt servers infomap rulemap playermap
               = (log, Returned (Ok sl)))
  ↔ ignoresAll flt = false ∧
    OpenCountryDB env = None ∧
    OpenServerDB env = None ∧
    Forall (hostReady flt infomap rulemap playermap env) servers ∧
    is_Some (GetIDsForServerList env
               (appended
                  (listedAddress infomap <$>
                   filter (λ h, succeeds flt infomap rulemap playermap h = true)
                     servers))).
Proof.
  split.
  - intros (log & sl & Hrun).
    destruct (buildServerList_returned _ _ _ _ _ _ _ _ Hrun)
      as (Hguard & recorded & _ & _ & Hfor & _).
    destruct (buildServerList_detail _ _ _ _ _ _ _ _ Hrun)
      as (ids & Hids & _ & Hend & _).
    split; [done|].
    assert (Hdbs : OpenCountryDB env = None ∧ OpenServerDB env = None).
    { unfold buildServerList in Hrun. rewrite Hguard, emit_bind in Hrun.
      destruct (OpenCountryDB env); [discriminate|]. split; [done|].
      destruct (OpenServerDB env); [|done].
      rewrite emit_bind in Hrun. discriminate. }
    destruct Hdbs as [Hcdb Hsdb]. split; [done|]. split; [done|]. split.
    + apply Forall_forall. intros host Hin Hsucc ip port Hsplit.
      assert (Hin' : host ∈ filter
                (λ h, succeeds flt infomap rulemap playermap h = true) servers)
        by (by apply list_elem_of_filter).
      apply list_elem_of_lookup in Hin' as [i Hi].
      destruct (Forall2_lookup_l _ _ _ _ _ Hfor Hi) as (s & Hs & Hent).
      destruct (Forall2_lookup_l _ _ _ _ _ Hend Hi) as (s' & Hs' & Hent').
      split.
      * by eapply (proj2 (entryFor_listed _ _ _ Hent)).
      * by eapply entryEndpoint_replied.
    + assert (Hhosts : server.Host <$> elems (serverList.Servers sl) =
                listedAddress infomap <$>
                filter (λ h, succeeds flt infomap rulemap playermap h = true)
                  servers).
      { clear -Hfor. induction Hfor as [|host s hosts ss Hent _ IH]; [done|].
        rewrite !fmap_cons, IH. f_equal.
        by apply (entryFor_listed _ _ _ Hent). }
      rewrite <- Hhosts. by eexists.
  - intros (Hguard & Hcdb & Hsdb & Hall & Hids).
    destruct (hostLoop_progress env flt infomap rulemap playermap servers
                (mkLoop make_slice None None false 0%Z) Hall)
      as (l1 & st & Hloop).
    assert (Huse : useEmptyInfo (mkLoop (Country := Country) make_slice None
                                   None false 0%Z) = true →
                   HasIgnoreInfo flt = true) by (intros [=]).
    destruct (hostLoop_returned env flt infomap rulemap playermap servers
                _ _ _ Huse Hloop)
      as (new & HS & _ & _ & Hfor & _).
    assert (Hhosts : server.Host <$> new =
              listedAddress infomap <$>
              filter (λ h, succeeds flt infomap rulemap playermap h = true)
                servers).
    { clear -Hfor. induction Hfor as [|host s hosts ss Hent _ IH]; [done|].
      rewrite !fmap_cons, IH. f_equal.
      by apply (entryFor_listed _ _ _ Hent). }
    simpl in HS. rewrite <- Hhosts, <- HS, <- hostsOf_appended in Hids.
    destruct Hids as [m Hm].
    unfold buildServerList. rewrite Hguard, Hcdb, Hsdb.
    eexists _, _. eapply mbind_intro; [reflexivity|].
    unfold defer.
    erewrite (mbind_intro (emit EvOpenServerDB)); [reflexivity|reflexivity|].
    eapply mbind_intro; [exact Hloop|].
    eapply mbind_intro; [reflexivity|].
    eapply mbind_intro; [|reflexivity].
    unfold setServerIDForList.
    eapply mbind_intro; [reflexivity|].
    cbn [serverList.Servers]. rewrite Hm.
    eapply mbind_intro; reflexivity.
Qed.

Lemma hostLoop_panics pre host post :
  Forall (hostReady flt infomap rulemap playermap env) pre →
  (∀ st, hostBody env flt infomap rulemap playermap host st = ([], Panicked)) →
  ∀ st, ending (forRange (hostBody env flt infomap rulemap playermap)
                  (pre ++ host :: post) st) = Panicked.
Proof.
  intros Hpre Hbody. induction pre as [|x pre IH]; intros st.
  - cbn [app forRange]. by rewrite ending_mbind, Hbody.
  - apply Forall_cons in Hpre as [Hx Hpre].
    destruct (hostBody_progress env flt infomap rulemap playermap x st Hx)
      as (l & st1 & Hret).
    rewrite <- app_comm_cons.
    rewrite (forRange_cons_returned _ _ _ _ _ _ Hret).
    unfold ending in *. cbn [snd]. by apply IH.
Qed.

(** X26. A successful host whose address splits into ip and port and
    whose info is nil (absent from the info map, as for every host when
    info is skipped, or stored as a nil pointer) makes [buildServerList]
    panic when the loop reaches it, whatever hosts come after it. *)
Theorem nil_info_panics_anywhere pre host post ip port :
  ignoresAll flt = false →
  OpenCountryDB env = None →
  OpenServerDB env = None →
  Forall (hostReady flt infomap rulemap playermap env) pre →
  succeeds flt infomap rulemap playermap host = true →
  SplitHostPort host = Ok (ip, port) →
  default None (infomap !! host) = None →
  ending (buildServerList env flt (pre ++ host :: post) infomap rulemap
            playermap) = Panicked.
Proof.
  intros Hguard Hcdb Hsdb Hpre Hsucc Hsplit Hnil.
  assert (Hbody : ∀ st, hostBody env flt infomap rulemap playermap host st
                        = ([], Panicked)).
  { intros st. unfold hostBody. rewrite !commaOk_eq.
    unfold succeeds in Hsucc.
    set (success := hostSuccess _ _ _ _) in *. rewrite Hnil.
    destruct (HasIgnoreInfo flt); rewrite Hsucc;
      unfold successBranch; by rewrite Hsplit. }
  unfold buildServerList. rewrite Hguard, Hcdb, Hsdb.
  rewrite ending_mbind. cbn [ending emit snd].
  rewrite ending_defer, ending_mbind. cbn [ending emit snd].
  by rewrite ending_mbind, (hostLoop_panics pre host post Hpre Hbody).
Qed.

End assembler_outcome.

Lemma nil_info_panics_anywhere_sample :
  ending (buildServerList sampleEnv ignoreInfoOnly ([hostC] ++ hostA :: [hostB])
            ∅ sampleRuleMap samplePlayerMap) = Panicked.
Proof.
  apply (nil_info_panics_anywhere sampleEnv ignoreInfoOnly ∅ sampleRuleMap
           samplePlayerMap [hostC] hostA [hostB] "10.0.0.1" "27015");
    try reflexivity.
  constructor; [|constructor].
  intros Hsucc. vm_compute in Hsucc. discriminate.
Defined.
